(** * The streaming comparison coordinator of the model comparison dashboard

    A shallow embedding of [runComparison], [stopComparison] and the
    one-second progress updater of the [ModelComparison] component,
    followed by the properties of its specification.

    Conventions of the embedding.
    - A JavaScript object used as a [Record<string, _>] is an association
      list with distinct keys, in insertion order: this is the order of
      [Object.keys] for keys that are not array indices (the model ids are
      names such as "zhipu"), and the updater numbers the workers by it.
    - Progress values are integers ([Z]); the operations the code applies
      to them ([Math.max], [Math.min], [<], [||]) are exact there.
    - Durations are rationals ([Q]): the arithmetic on elapsed seconds is
      taken exactly, without the rounding of IEEE doubles.  A value that is
      [undefined] or [NaN] in the program is [None].
    - React's functional state updates are applied in the order they are
      queued, so a handler is a function from state to state.
    - The clock, the stream and the user reach a run as inputs: a chunk,
      the end of the stream, the timeout, a failure, a tick with the time
      it reads, a stop.  [Date.now()] is read once when a run starts. *)

From Stdlib Require Import List String Ascii Bool ZArith QArith Qround Qminmax.
From Stdlib Require Import Lia Lqa DecimalString Permutation Sorted.
Import ListNotations.

Local Open Scope string_scope.
Local Open Scope list_scope.

(** ** Event frame decoder *)

Module Decoder.

(** The line feed the stream is split on, and the carriage return that
    [/\r$/] removes. *)
Definition LF : ascii := "010"%char.
Definition CR : ascii := "013"%char.

(** [s.split('\n')]: the pieces between line feeds; one more piece than
    there are line feeds, so never empty. *)
Fixpoint split_nl (s : string) : list string :=
  match s with
  | EmptyString => [EmptyString]
  | String c s' =>
      if Ascii.eqb c LF then EmptyString :: split_nl s'
      else match split_nl s' with
           | [] => [String c EmptyString]
           | piece :: pieces => String c piece :: pieces
           end
  end.

(** [rawLine.replace(/\r$/, '')]: without the [m] flag [$] is the end of
    the string, so at most one carriage return, the last character, goes. *)
Fixpoint strip_cr (rawLine : string) : string :=
  match rawLine with
  | EmptyString => EmptyString
  | String c rest =>
      match rest with
      | EmptyString => if Ascii.eqb c CR then EmptyString else rawLine
      | String _ _ => String c (strip_cr rest)
      end
  end.

(** [line.startsWith('data: ')] and [line.slice(6)] in one: the payload of
    a framed line, [None] for a line that is not framed. *)
Fixpoint strip_prefix (pre line : string) : option string :=
  match pre with
  | EmptyString => Some line
  | String p pre' =>
      match line with
      | EmptyString => None
      | String c line' => if Ascii.eqb p c then strip_prefix pre' line' else None
      end
  end.

Definition data_payload (line : string) : option string :=
  strip_prefix "data: " line.

(** One turn of the read loop on a chunk that [reader.read()] delivered:
    [sseBuffer += chunk; lines = sseBuffer.split('\n');
     sseBuffer = lines.pop() || ''], and the lines with [\r] stripped. *)
Definition read_chunk (sseBuffer chunk : string) : list string * string :=
  let lines := split_nl (sseBuffer ++ chunk) in
  (map strip_cr (removelast lines), last lines "").

(** The loop over the chunks of a stream: the lines handed on, in order,
    and the buffer left when the stream ends. *)
Fixpoint read_chunks (sseBuffer : string) (chunks : list string)
  : list string * string :=
  match chunks with
  | [] => ([], sseBuffer)
  | chunk :: chunks' =>
      let '(lines, sseBuffer') := read_chunk sseBuffer chunk in
      let '(lines', final) := read_chunks sseBuffer' chunks' in
      (lines ++ lines', final)
  end.

(** The payloads among the decoded lines. *)
Fixpoint payloads (lines : list string) : list string :=
  match lines with
  | [] => []
  | line :: lines' =>
      match data_payload line with
      | Some p => p :: payloads lines'
      | None => payloads lines'
      end
  end.

(** The text of a stream: what the chunks add up to. *)
Definition joined (chunks : list string) : string :=
  fold_right String.append "" chunks.

(** Records on the wire, each closed by a line feed. *)
Definition wire (records : list string) : string :=
  joined (map (fun r => (r ++ String LF "")%string) records).

Fixpoint no_newline (s : string) : bool :=
  match s with
  | EmptyString => true
  | String c s' => negb (Ascii.eqb c LF) && no_newline s'
  end.

End Decoder.

(** ** JavaScript objects keyed by strings *)

Module JsObject.

Section Obj.
Context {V : Type}.

(** [o[k]]: [None] is [undefined]. *)
Fixpoint get (k : string) (o : list (string * V)) : option V :=
  match o with
  | [] => None
  | (k', v) :: o' => if String.eqb k k' then Some v else get k o'
  end.

(** [{ ...o, [k]: v }] and [o[k] = v]: an existing key keeps its place,
    a new key goes last. *)
Fixpoint set (k : string) (v : V) (o : list (string * V))
  : list (string * V) :=
  match o with
  | [] => [(k, v)]
  | (k', v') :: o' =>
      if String.eqb k k' then (k, v) :: o' else (k', v') :: set k v o'
  end.

(** [Object.keys(o)]. *)
Definition keys (o : list (string * V)) : list string := map fst o.

(** [Object.keys(o).indexOf(k)], [None] for a key that is not there. *)
Fixpoint index_of (k : string) (o : list (string * V)) : option nat :=
  match o with
  | [] => None
  | (k', _) :: o' =>
      if String.eqb k k' then Some 0%nat else option_map S (index_of k o')
  end.

(** [Object.keys(o).forEach((k, i) => { updated[k] = f(i, o[k]) })] into a
    fresh object, the index counted from [i]. *)
Fixpoint mapi_from (f : nat -> V -> V) (i : nat) (o : list (string * V))
  : list (string * V) :=
  match o with
  | [] => []
  | (k, v) :: o' => (k, f i v) :: mapi_from f (S i) o'
  end.

(** The same without the index. *)
Definition map_values (f : V -> V) (o : list (string * V))
  : list (string * V) :=
  map (fun kv => (fst kv, f (snd kv))) o.
End Obj.

End JsObject.

(** ** The coordinator *)

Module Coordinator.
Import Decoder.

Inductive Status := pending | running | completed | failed.

(** [evt.result_summary]; its fields carry the prefix [rs_] to keep them
    apart from those of [ComparisonResult]. *)
Record ResultSummary := {
  rs_word_count : Z;
  rs_sources_found : Z;
  rs_duration : Q
}.

Record StageTimings := {
  clarification : Q;
  research_brief : Q;
  research_execution : Q;
  final_report : Q
}.

(** [error?] is [result_error] here, [error] being the run's own field. *)
Record ComparisonResult := {
  model : string;
  duration : Q;
  stage_timings : StageTimings;
  sources_found : Z;
  word_count : Z;
  success : bool;
  result_error : option string;
  report_content : string;
  supervisor_tools_used : list string
}.

(** Without [user_feedback], which the run never reads. *)
Record ComparisonSession := {
  session_id : string;
  query : string;
  timestamp : string;
  results : list ComparisonResult
}.

(** The value type of [modelProgress].  [startTime] and [resultSummary] are
    missing from an entry that an event created for a key the object did
    not have; [currentDuration] is [None] when it is [undefined] or [NaN]. *)
Record WorkerProgress := {
  stage : string;
  startTime : option Z;
  currentDuration : option Q;
  progress : Z;
  status : Status;
  resultSummary : option ResultSummary
}.

(** The fields of [...prev[model]] that a handler does not overwrite. *)
Definition spread_startTime (prev : option WorkerProgress) : option Z :=
  match prev with Some e => startTime e | None => None end.
Definition spread_currentDuration (prev : option WorkerProgress) : option Q :=
  match prev with Some e => currentDuration e | None => None end.
Definition spread_resultSummary (prev : option WorkerProgress)
  : option ResultSummary :=
  match prev with Some e => resultSummary e | None => None end.

(** The events of the stream, by their [type]; every field has the type
    the protocol gives it, an optional field is an [option]. *)
Inductive Event :=
| session_start (session_id : string)
| model_progress (model stage : string) (elapsed : Q) (progress : Z)
| model_complete (model : string) (elapsed : Q)
    (result_summary : ResultSummary) (result : option ComparisonResult)
| model_error (model : string) (stage : option string)
    (elapsed : option Q) (progress : option Z)
| stream_error (message : option string)  (* type 'error' *)
| session_complete (session : ComparisonSession)
| heartbeat
| other_event.

(** The state of the component that a run touches, with the two locals of
    [runComparison] that outlive a turn of its loop: [sseBuffer], and
    [reading], which holds while the loop waits on [reader.read()]. *)
Record State := {
  selectedModels : list string;
  isRunning : bool;
  error : option string;
  modelProgress : list (string * WorkerProgress);
  earlyResults : list ComparisonResult;
  latestSession : option ComparisonSession;
  sseBuffer : string;
  reading : bool
}.

Definition with_modelProgress (f : list (string * WorkerProgress) ->
                                   list (string * WorkerProgress))
  (st : State) : State :=
  {| selectedModels := selectedModels st; isRunning := isRunning st;
     error := error st; modelProgress := f (modelProgress st);
     earlyResults := earlyResults st; latestSession := latestSession st;
     sseBuffer := sseBuffer st; reading := reading st |}.

Definition with_earlyResults (f : list ComparisonResult ->
                                  list ComparisonResult)
  (st : State) : State :=
  {| selectedModels := selectedModels st; isRunning := isRunning st;
     error := error st; modelProgress := modelProgress st;
     earlyResults := f (earlyResults st); latestSession := latestSession st;
     sseBuffer := sseBuffer st; reading := reading st |}.

Definition with_error (e : option string) (st : State) : State :=
  {| selectedModels := selectedModels st; isRunning := isRunning st;
     error := e; modelProgress := modelProgress st;
     earlyResults := earlyResults st; latestSession := latestSession st;
     sseBuffer := sseBuffer st; reading := reading st |}.

Definition with_latestSession (s : option ComparisonSession) (st : State)
  : State :=
  {| selectedModels := selectedModels st; isRunning := isRunning st;
     error := error st; modelProgress := modelProgress st;
     earlyResults := earlyResults st; latestSession := s;
     sseBuffer := sseBuffer st; reading := reading st |}.

Definition with_sseBuffer (b : string) (st : State) : State :=
  {| selectedModels := selectedModels st; isRunning := isRunning st;
     error := error st; modelProgress := modelProgress st;
     earlyResults := earlyResults st; latestSession := latestSession st;
     sseBuffer := b; reading := reading st |}.

(** Leaving [runComparison] through its [finally]:
    [setIsRunning(false)], and the loop is gone. *)
Definition finish (st : State) : State :=
  {| selectedModels := selectedModels st; isRunning := false;
     error := error st; modelProgress := modelProgress st;
     earlyResults := earlyResults st; latestSession := latestSession st;
     sseBuffer := sseBuffer st; reading := false |}.

(** [s || dflt] on an optional string: the empty string is falsy too. *)
Definition string_or (s : option string) (dflt : string) : string :=
  match s with
  | Some EmptyString | None => dflt
  | Some s' => s'
  end.

(** [n || 0] on an optional number. *)
Definition number_or_0 (n : option Z) : Z :=
  match n with
  | Some n' => if (n' =? 0)%Z then 0%Z else n'
  | None => 0%Z
  end.

(** *** The handlers of the read loop *)

(** The update of [modelProgress] on [model_progress]. *)
Definition on_model_progress (model stage : string) (elapsed : Q)
  (progress : Z) (prev : list (string * WorkerProgress))
  : list (string * WorkerProgress) :=
  JsObject.set model
    {| stage := stage;
       startTime := spread_startTime (JsObject.get model prev);
       currentDuration := Some elapsed;
       progress := progress;
       status := running;
       resultSummary := spread_resultSummary (JsObject.get model prev) |}
    prev.

(** The update of [modelProgress] on [model_complete]. *)
Definition on_model_complete (model : string) (elapsed : Q)
  (result_summary : ResultSummary) (prev : list (string * WorkerProgress))
  : list (string * WorkerProgress) :=
  JsObject.set model
    {| stage := "Completed";
       startTime := spread_startTime (JsObject.get model prev);
       currentDuration := Some elapsed;
       progress := 100%Z;
       status := completed;
       resultSummary := Some result_summary |}
    prev.

(** [prev => [...prev.filter(r => r.model !== evt.model), evt.result]]. *)
Definition upsert_result (evt_model : string) (result : ComparisonResult)
  (prev : list ComparisonResult) : list ComparisonResult :=
  filter (fun r => negb (String.eqb (model r) evt_model)) prev ++ [result].

(** The update of [modelProgress] on [model_error]. *)
Definition on_model_error (model : string) (stage : option string)
  (elapsed : option Q) (progress : option Z)
  (prev : list (string * WorkerProgress))
  : list (string * WorkerProgress) :=
  JsObject.set model
    {| stage := string_or stage "Failed";
       startTime := spread_startTime (JsObject.get model prev);
       currentDuration := elapsed;
       progress := number_or_0 progress;
       status := failed;
       resultSummary := spread_resultSummary (JsObject.get model prev) |}
    prev.

(** The chain of [if (evt.type === ...)] in the loop. *)
Definition handle_event (evt : Event) (st : State) : State :=
  match evt with
  | session_start _ => st
  | model_progress m s e p =>
      with_modelProgress (on_model_progress m s e p) st
  | model_complete m e summary result =>
      let st' := with_modelProgress (on_model_complete m e summary) st in
      match result with
      | Some r => with_earlyResults (upsert_result m r) st'
      | None => st'
      end
  | model_error m s e p =>
      with_modelProgress (on_model_error m s e p) st
  | stream_error message =>
      with_error (Some (string_or message "Backend stream error")) st
  | session_complete session => with_latestSession (Some session) st
  | heartbeat => st
  | other_event => st
  end.

Definition handle_events (evts : list Event) (st : State) : State :=
  fold_left (fun s evt => handle_event evt s) evts st.

(** *** The progress updater, once a second *)

Definition Qltb (x y : Q) : bool := negb (Qle_bool y x).

(** [(Date.now() - startTime) / 1000]; [NaN] without a start time. *)
Definition elapsed_at (now : Z) (startTime : option Z) : option Q :=
  match startTime with
  | Some t0 => Some (inject_Z (now - t0) / 1000)%Q
  | None => None
  end.

Definition modelDelay (modelIndex : nat) : Q :=
  (2 + inject_Z (Z.of_nat modelIndex) * 1.2)%Q.
Definition modelRate (modelIndex : nat) : Q :=
  (0.35 + inject_Z (Z.of_nat modelIndex) * 0.12)%Q.

(** [Math.max(0, elapsed - modelDelay)]. *)
Definition adjustedElapsed (elapsed : option Q) (modelIndex : nat)
  : option Q :=
  match elapsed with
  | Some el => Some (Qmax 0 (el - modelDelay modelIndex))
  | None => None
  end.

(** The conditional that defines [syntheticProgress]. *)
Definition syntheticProgress (progress : Z) (adjusted : option Q)
  (modelIndex : nat) : Z :=
  match adjusted with
  | Some adj =>
      if (progress <? 15)%Z && Qltb 0 adj
      then Z.min 15 (Z.max progress
                       (1 + Qfloor (adj * modelRate modelIndex)))
      else progress
  | None => progress
  end.

(** The body of the [forEach] for one worker. *)
Definition tick_entry (now : Z) (modelIndex : nat) (e : WorkerProgress)
  : WorkerProgress :=
  match status e with
  | running =>
      let elapsed := elapsed_at now (startTime e) in
      let adjusted := adjustedElapsed elapsed modelIndex in
      {| stage := stage e;
         startTime := startTime e;
         currentDuration := elapsed;
         progress :=
           Z.max (progress e)
                 (syntheticProgress (progress e) adjusted modelIndex);
         status := status e;
         resultSummary := resultSummary e |}
  | _ => e
  end.

Definition tick (now : Z) (prev : list (string * WorkerProgress))
  : list (string * WorkerProgress) :=
  JsObject.mapi_from (tick_entry now) 0 prev.

(** *** Stop, start, and the ways a run ends *)

Definition stop_entry (e : WorkerProgress) : WorkerProgress :=
  match status e with
  | running | pending =>
      {| stage := "Stopped by user";
         startTime := startTime e;
         currentDuration := currentDuration e;
         progress := progress e;
         status := failed;
         resultSummary := resultSummary e |}
  | _ => e
  end.

(** [stopComparison], with the exit of [runComparison] that the abort
    causes: the [AbortError] is caught and returned from, with no
    [setError]. *)
Definition stopComparison (st : State) : State :=
  finish (with_modelProgress (JsObject.map_values stop_entry) st).

(** [initialProgress], filled in the order of [selectedModels]. *)
Definition initialProgress (now : Z) (selected : list string)
  : list (string * WorkerProgress) :=
  fold_left
    (fun o m =>
       JsObject.set m
         {| stage := "Initializing...";
            startTime := Some now;
            currentDuration := Some 0%Q;
            progress := 0%Z;
            status := pending;
            resultSummary := None |} o)
    selected [].

(** "Start progress tracking": one update per selected model. *)
Definition start_tracking (selected : list string)
  (prev : list (string * WorkerProgress)) : list (string * WorkerProgress) :=
  fold_left
    (fun o m =>
       JsObject.set m
         {| stage := "Running research...";
            startTime := spread_startTime (JsObject.get m o);
            currentDuration := spread_currentDuration (JsObject.get m o);
            progress := 0%Z;
            status := running;
            resultSummary := spread_resultSummary (JsObject.get m o) |} o)
    selected prev.

(** [runComparison] from [setIsRunning(true)] to the open stream, once
    its guards on the query and the keys have passed; [now] is the clock
    when [initialProgress] is filled. *)
Definition begin_run (now : Z) (selected : list string) : State :=
  {| selectedModels := selected;
     isRunning := true;
     error := None;
     modelProgress := start_tracking selected (initialProgress now selected);
     earlyResults := [];
     latestSession := None;
     sseBuffer := "";
     reading := true |}.

(** The [catch] of [runComparison] for an error that is not an abort:
    every selected model is marked failed. *)
Definition mark_all_failed (selected : list string)
  (prev : list (string * WorkerProgress)) : list (string * WorkerProgress) :=
  fold_left
    (fun o m =>
       JsObject.set m
         {| stage := "Failed";
            startTime := spread_startTime (JsObject.get m o);
            currentDuration := spread_currentDuration (JsObject.get m o);
            progress :=
              number_or_0 (option_map progress (JsObject.get m o));
            status := failed;
            resultSummary := spread_resultSummary (JsObject.get m o) |} o)
    selected prev.

Definition on_failure (message : string) (st : State) : State :=
  finish (with_modelProgress (mark_all_failed (selectedModels st))
            (with_error (Some message) st)).

(** The end of the stream: the loop is left, [fetchComparisonData] clears
    the error and sets it again if the refresh fails ([refresh] is that
    failure's message), and the [finally] runs. *)
Definition on_done (refresh : option string) (st : State) : State :=
  finish (with_error refresh st).

(** What reaches a run from outside. *)
Inductive Input :=
| Chunk (value : string)
    (* [reader.read()] delivers a chunk *)
| StreamDone (refresh : option string)
    (* [reader.read()] reports [done] *)
| StreamTimeout (refresh : option string)
    (* [streamTimeout] fires: [reader.cancel()], so the pending read
       reports [done] *)
| StreamFailed (message : string)
    (* the request or a read throws something other than an abort *)
| Tick (now : Z)
    (* the interval fires *)
| Stop.
    (* [stopComparison()] *)

Section Run.
(** [JSON.parse] and the reading of the event's fields: [None] when the
    payload does not parse. *)
Variable JSON_parse : string -> option Event.

(** The body of [for (const rawLine of lines)], after the [\r] is
    stripped. *)
Definition process_line (line : string) (st : State) : State :=
  match data_payload line with
  | Some payload =>
      match JSON_parse payload with
      | Some evt => handle_event evt st
      | None => st
      end
  | None => st
  end.

(** One turn of the [while (true)] on a chunk. *)
Definition process_chunk (value : string) (st : State) : State :=
  let '(lines, buffer) := read_chunk (sseBuffer st) value in
  fold_left (fun s line => process_line line s) lines
    (with_sseBuffer buffer st).

(** The events among decoded lines: the framed lines whose payload parses. *)
Fixpoint parsed_events (lines : list string) : list Event :=
  match lines with
  | [] => []
  | line :: lines' =>
      match data_payload line with
      | Some payload =>
          match JSON_parse payload with
          | Some evt => evt :: parsed_events lines'
          | None => parsed_events lines'
          end
      | None => parsed_events lines'
      end
  end.

Definition step (i : Input) (st : State) : State :=
  match i with
  | Chunk value => if reading st then process_chunk value st else st
  | StreamDone refresh => if reading st then on_done refresh st else st
  | StreamTimeout refresh => if reading st then on_done refresh st else st
  | StreamFailed message => if reading st then on_failure message st else st
  | Tick now =>
      if isRunning st then with_modelProgress (tick now) st else st
  | Stop => stopComparison st
  end.

Definition run (inputs : list Input) (st : State) : State :=
  fold_left (fun s i => step i s) inputs st.
End Run.

(** Readings of the state, for the statements. *)
Definition worker (w : string) (st : State) : option WorkerProgress :=
  JsObject.get w (modelProgress st).
Definition status_of (w : string) (st : State) : option Status :=
  option_map status (worker w st).
Definition progress_of (w : string) (st : State) : option Z :=
  option_map progress (worker w st).

(** The updates of a run seen after decoding: an event of the stream, or
    a firing of the interval. *)
Inductive Update :=
| ServerEvent (evt : Event)
| LocalTick (now : Z).

Definition apply_update (u : Update) (st : State) : State :=
  match u with
  | ServerEvent evt => handle_event evt st
  | LocalTick now => with_modelProgress (tick now) st
  end.

Definition apply_updates (us : list Update) (st : State) : State :=
  fold_left (fun s u => apply_update u s) us st.

(** An event that writes [w]'s entry with a status other than completed. *)
Definition overwrites (w : string) (u : Update) : bool :=
  match u with
  | ServerEvent (model_progress m _ _ _) => String.eqb m w
  | ServerEvent (model_error m _ _ _) => String.eqb m w
  | _ => false
  end.



(** The progress after a tick as the specification words it:
    [max(current, min(15, 1 + floor(max(0, elapsed - delay) * rate)))]. *)
Definition spec_tick_progress (current : Z) (elapsed : Q) (i : nat) : Z :=
  Z.max current
    (Z.min 15 (1 + Qfloor (Qmax 0 (elapsed - modelDelay i) * modelRate i))).

End Coordinator.

(** ** The component around the coordinator *)

Module Component.
Import Decoder Coordinator.

(** Text that [trim] and [\s] look into is a list of UTF-16 code units,
    as a JavaScript string is; the ids of the models and the texts the
    component writes itself stay [string]s. *)

(** The code units of a literal written in ASCII. *)
Definition code_units (s : string) : list N :=
  map N_of_ascii (list_ascii_of_string s).

(** White space and line terminators, what [trim] strips and [\s]
    matches: TAB, LF, VT, FF, CR, SP, NBSP, U+1680, U+2000 to U+200A,
    U+2028, U+2029, U+202F, U+205F, U+3000 and U+FEFF. *)
Definition is_space (c : N) : bool :=
  ((9 <=? c) && (c <=? 13)
   || (c =? 32) || (c =? 160) || (c =? 5760)
   || (8192 <=? c) && (c <=? 8202)
   || (c =? 8232) || (c =? 8233) || (c =? 8239) || (c =? 8287)
   || (c =? 12288) || (c =? 65279))%N.

(** [s.trim()]. *)
Fixpoint trim_start (s : list N) : list N :=
  match s with
  | [] => []
  | c :: s' => if is_space c then trim_start s' else s
  end.

Fixpoint trim_end (s : list N) : list N :=
  match s with
  | [] => []
  | c :: s' =>
      match trim_end s' with
      | [] => if is_space c then [] else [c]
      | rest => c :: rest
      end
  end.

Definition trim (s : list N) : list N := trim_end (trim_start s).

(** A string in a condition: the empty string is falsy. *)
Definition truthy (s : list N) : bool :=
  match s with [] => false | _ :: _ => true end.

(** [parts.join(sep)]. *)
Fixpoint join (sep : string) (parts : list string) : string :=
  match parts with
  | [] => EmptyString
  | [p] => p
  | p :: rest => (p ++ sep ++ join sep rest)%string
  end.

(** An entry of [availableModels]; the names come from the translations. *)
Record AvailableModel := {
  am_id : string;
  am_name : string;
  am_description : string
}.

(** [availableModels.find(m => m.id === id)?.name || id]. *)
Definition getModelName (availableModels : list AvailableModel)
  (id : string) : string :=
  string_or
    (option_map am_name
       (find (fun m => String.eqb (am_id m) id) availableModels))
    id.

(** The state of the component: the part a run touches, the query text,
    the keys of the research context and the result shown in the modal.
    The metrics of [fetchComparisonData] and the key manager's visibility
    are left out. *)
Record Component := {
  coordinator : State;
  query : list N;
  apiKeys : list (string * list N);
  selectedResult : option ComparisonResult
}.

(** [apiKeys[model]?.trim()] as a condition. *)
Definition has_key (keys : list (string * list N)) (model : string) : bool :=
  match JsObject.get model keys with
  | Some key => truthy (trim key)
  | None => false
  end.

(** [selectedModels.filter(model => !apiKeys[model]?.trim())]. *)
Definition missingKeys (keys : list (string * list N))
  (selected : list string) : list string :=
  filter (fun m => negb (has_key keys m)) selected.

(** The [disabled] of the run button. *)
Definition run_disabled (c : Component) : bool :=
  negb (truthy (trim (query c)))
  || (List.length (selectedModels (coordinator c)) =? 0)%nat
  || existsb (fun m => negb (has_key (apiKeys c) m))
       (selectedModels (coordinator c)).

Definition missing_keys_message (availableModels : list AvailableModel)
  (missing : list string) : string :=
  ("Missing API keys for: "
   ++ join ", " (map (getModelName availableModels) missing)
   ++ ". Please configure all keys first.")%string.

Definition with_coordinator (f : State -> State) (c : Component)
  : Component :=
  {| coordinator := f (coordinator c); query := query c;
     apiKeys := apiKeys c; selectedResult := selectedResult c |}.

(** [runComparison] up to the request: its two guards, then the start of
    the run. *)
Definition runComparison (availableModels : list AvailableModel) (now : Z)
  (c : Component) : Component :=
  let selected := selectedModels (coordinator c) in
  let trimmedQuery := trim (query c) in
  if negb (truthy trimmedQuery) || (List.length selected =? 0)%nat then c
  else
    match missingKeys (apiKeys c) selected with
    | [] => with_coordinator (fun _ => begin_run now selected) c
    | missing =>
        with_coordinator
          (with_error (Some (missing_keys_message availableModels missing)))
          c
    end.

(** [key || '']. *)
Definition key_or_empty (key : option (list N)) : list N :=
  match key with
  | Some (c :: rest) => c :: rest
  | Some [] | None => []
  end.

(** [modelApiKeys]: [apiKeys[model] || ''] for each selected model. *)
Definition modelApiKeys (keys : list (string * list N))
  (selected : list string) : list (string * list N) :=
  fold_left
    (fun o m => JsObject.set m (key_or_empty (JsObject.get m keys)) o)
    selected [].

(** The body of the request: [query], [models], [api_keys]. *)
Definition request_body (c : Component)
  : list N * list string * list (string * list N) :=
  (trim (query c), selectedModels (coordinator c),
   modelApiKeys (apiKeys c) (selectedModels (coordinator c))).

(** [resetComparison]: stop, then the six [set...] calls. *)
Definition resetComparison (c : Component) : Component :=
  {| coordinator :=
       with_error None
         (with_modelProgress (fun _ => [])
            (with_latestSession None
               (with_earlyResults (fun _ => [])
                  (stopComparison (coordinator c)))));
     query := [];
     apiKeys := apiKeys c;
     selectedResult := None |}.

(** The update of [selectedModels] behind a model's button:
    [prev.includes(id) ? prev.filter(x => x !== id) : [...prev, id]]. *)
Definition toggle_model (id : string) (prev : list string) : list string :=
  if existsb (String.eqb id) prev
  then filter (fun x => negb (String.eqb x id)) prev
  else prev ++ [id].

(** The initial [selectedModels]. *)
Definition initial_selection : list string := ["zhipu"; "deepseek"; "kimi"].

(** [getKeysConfigured]. *)
Definition getKeysConfigured (keys : list (string * list N)) : nat :=
  List.length (filter (fun kv => truthy (trim (snd kv))) keys).

(** *** What the progress panel shows *)

(** [Object.values(modelProgress).filter(p => p.status === 'completed')
    .length]. *)
Definition completed_count (o : list (string * WorkerProgress)) : nat :=
  List.length (filter (fun kv => match status (snd kv) with
                            | completed => true
                            | _ => false
                            end) o).

(** The width of a card's bar, in percent. *)
Definition bar_width (p : WorkerProgress) : Z :=
  match status p with
  | completed => 100%Z
  | failed => 100%Z
  | _ => number_or_0 (Some (progress p))
  end.



(** The conditions under which the progress panel and the button for a
    new comparison are rendered. *)
Definition shows_progress_panel (st : State) : bool :=
  (0 <? List.length (JsObject.keys (modelProgress st)))%nat
  && (isRunning st
      || match latestSession st with Some _ => false | None => true end).

Definition shows_new_comparison (st : State) : bool :=
  negb (isRunning st)
  && ((0 <? List.length (JsObject.keys (modelProgress st)))%nat
      || match latestSession st with Some _ => true | None => false end).

(** The worker an event names, if it names one. *)
Definition event_model (evt : Event) : option string :=
  match evt with
  | model_progress m _ _ _ | model_complete m _ _ _ | model_error m _ _ _ =>
      Some m
  | _ => None
  end.

(** Every event names a selected worker or none. *)
Definition names_selected (selected : list string) (evt : Event) : bool :=
  match event_model evt with
  | Some m => existsb (String.eqb m) selected
  | None => true
  end.

(** A parser for worked runs: the four payloads it knows. *)
Definition sample_parse (payload : string) : option Event :=
  if String.eqb payload "a40"
  then Some (model_progress "a" "Searching" 3 40)
  else if String.eqb payload "adone"
  then Some (model_complete "a" 9
               {| rs_word_count := 1200; rs_sources_found := 8;
                  rs_duration := 9 |} None)
  else if String.eqb payload "bfail"
  then Some (model_error "b" None None None)
  else if String.eqb payload "oops"
  then Some (stream_error (Some "upstream unavailable"))
  else None.

(** An input that keeps the read loop alive: a chunk or a tick. *)
Definition keeps_reading (i : Input) : bool :=
  match i with Chunk _ | Tick _ => true | _ => false end.

End Component.

(** ** The research history helpers *)

Module History.

(** [reportContent.split(/\s+/)]: the pieces between maximal runs of white
    space; a run at either end leaves an empty piece there.  [in_run] holds
    when the character before was white space. *)
Fixpoint split_spaces_from (in_run : bool) (s : list N) : list (list N) :=
  match s with
  | [] => [[]]
  | c :: s' =>
      if Component.is_space c
      then if in_run then split_spaces_from true s'
           else [] :: split_spaces_from true s'
      else match split_spaces_from false s' with
           | [] => [[c]]
           | piece :: pieces => (c :: piece) :: pieces
           end
  end.

Definition split_spaces (s : list N) : list (list N) :=
  split_spaces_from false s.

(** [wordCount] of [saveResearch]:
    [reportContent.split(/\s+/).filter(Boolean).length]. *)
Definition wordCount (reportContent : list N) : nat :=
  List.length (filter Component.truthy (split_spaces reportContent)).

(** A stored session, as [instantdb.ts] declares it; [createdAt] may be
    missing from a record. *)
Record ResearchSession := {
  id : string;
  query : string;
  model : string;
  reportContent : string;
  sources : string;
  duration : Z;
  storedWordCount : nat;
  createdAt : option Z;
  updatedAt : option Z
}.

(** [s.createdAt || 0]. *)
Definition created (s : ResearchSession) : Z :=
  match createdAt s with
  | Some t => if (t =? 0)%Z then 0%Z else t
  | None => 0%Z
  end.

(** [[...sessions].sort((a, b) => (b.createdAt || 0) - (a.createdAt || 0))].
    The comparator orders by [created], larger first; [sort] is stable, so
    the result is the one a stable insertion gives: a session goes before
    the first one that is not newer than it. *)
Fixpoint insert_session (s : ResearchSession) (sorted : list ResearchSession)
  : list ResearchSession :=
  match sorted with
  | [] => [s]
  | t :: rest =>
      if (created t <=? created s)%Z then s :: sorted
      else t :: insert_session s rest
  end.

Definition sort_sessions (sessions : list ResearchSession)
  : list ResearchSession :=
  fold_right insert_session [] sessions.

(** [useResearchHistory]: no sessions without a database, or while the
    query has no data. *)
Definition useResearchHistory (db_configured : bool)
  (data : option (list ResearchSession)) : list ResearchSession :=
  if db_configured
  then sort_sessions (match data with Some l => l | None => [] end)
  else [].

(** The last two sessions of a list that is newest first. *)
Fixpoint newest_first (l : list ResearchSession) : bool :=
  match l with
  | [] => true
  | s :: rest =>
      match rest with
      | [] => true
      | t :: _ => (created t <=? created s)%Z && newest_first rest
      end
  end.

Section Timestamp.
(** [date.toLocaleDateString('zh-CN', ...)], left to the platform. *)
Variable toLocaleDateString : Z -> string.

(** A number in a template string; the numbers here are integers. *)
Definition number_text (n : Z) : string :=
  DecimalString.NilZero.string_of_int (Z.to_int n).

(** The time value of [new Date(timestamp)]: none, the date is invalid,
    when the timestamp is missing or lies more than 8.64e15 milliseconds
    from the epoch. *)
Definition time_value (timestamp : option Z) : option Z :=
  match timestamp with
  | Some t => if (Z.abs t <=? 8640000000000000)%Z then Some t else None
  | None => None
  end.

(** [formatTimestamp]; [now] is what [new Date()] reads.  With an invalid
    date every difference is [NaN], every comparison fails, and
    [toLocaleDateString] answers "Invalid Date". *)
Definition formatTimestamp (now : Z) (timestamp : option Z) : string :=
  match time_value timestamp with
  | None => "Invalid Date"
  | Some t =>
      let diffMs := (now - t)%Z in
      let diffMins := (diffMs / 60000)%Z in
      let diffHours := (diffMs / 3600000)%Z in
      let diffDays := (diffMs / 86400000)%Z in
      if (diffMins <? 1)%Z then "刚刚"
      else if (diffMins <? 60)%Z
      then (number_text diffMins ++ " 分钟前")%string
      else if (diffHours <? 24)%Z
      then (number_text diffHours ++ " 小时前")%string
      else if (diffDays <? 7)%Z
      then (number_text diffDays ++ " 天前")%string
      else toLocaleDateString t
  end.
End Timestamp.

End History.

(** ** The language of the interface *)

Module LanguageContext.

Inductive Language := zh | en.

Definition language_code (l : Language) : string :=
  match l with zh => "zh" | en => "en" end.

(** The provider's state and the item ['app_language'] of [localStorage]. *)
Record Provider := {
  language : Language;
  stored : option string
}.

(** The provider as it mounts: ['zh'], then the effect that reads the
    stored item and takes it if it is one of the two codes. *)
Definition mount (saved : option string) : Provider :=
  {| language :=
       match saved with
       | Some code =>
           if String.eqb code "zh" then zh
           else if String.eqb code "en" then en
           else zh
       | None => zh
       end;
     stored := saved |}.

Definition setLanguage (lang : Language) (p : Provider) : Provider :=
  {| language := lang; stored := Some (language_code lang) |}.

Definition toggleLanguage (p : Provider) : Provider :=
  setLanguage (match language p with zh => en | en => zh end) p.

(** What a user does to the language. *)
Inductive Action := SetLanguage (lang : Language) | ToggleLanguage.

Definition act (a : Action) (p : Provider) : Provider :=
  match a with
  | SetLanguage lang => setLanguage lang p
  | ToggleLanguage => toggleLanguage p
  end.

Definition act_all (actions : list Action) (p : Provider) : Provider :=
  fold_left (fun q a => act a q) actions p.

End LanguageContext.

(** ** Properties of the decoder *)

Module DecoderFacts.
Import Decoder.

Lemma split_nl_nonempty s : split_nl s <> [].
Proof.
  destruct s as [|c s]; simpl; [discriminate|].
  destruct (Ascii.eqb c LF); [discriminate|].
  destruct (split_nl s); discriminate.
Qed.

Lemma append_nil_r (s : string) : (s ++ "")%string = s.
Proof. induction s; simpl; congruence. Qed.

Lemma append_assoc (a b c : string) :
  ((a ++ b) ++ c)%string = (a ++ (b ++ c))%string.
Proof. induction a; simpl; congruence. Qed.

(** Splitting a text in two: the lines closed in the first part, then the
    split of its open last piece followed by the second part. *)
Lemma split_nl_app a b :
  split_nl (a ++ b) =
  removelast (split_nl a) ++ split_nl (last (split_nl a) "" ++ b).
Proof.
  induction a as [|c a IH]; [reflexivity|].
  change (String c a ++ b)%string with (String c (a ++ b)).
  cbn [split_nl]. rewrite IH. clear IH.
  destruct (split_nl a) as [|p ps] eqn:E; [now apply split_nl_nonempty in E|].
  destruct (Ascii.eqb c LF) eqn:Ec.
  - destruct ps; reflexivity.
  - destruct ps as [|q qs].
    + cbn. rewrite Ec. reflexivity.
    + reflexivity.
Qed.

Lemma split_nl_no_newline s : no_newline s = true -> split_nl s = [s].
Proof.
  induction s as [|c s IH]; cbn; [reflexivity|].
  destruct (Ascii.eqb c LF); cbn; [discriminate|].
  intros H. rewrite (IH H). reflexivity.
Qed.

Lemma last_split_nl_no_newline s : no_newline (last (split_nl s) "") = true.
Proof.
  induction s as [|c s IH]; [reflexivity|].
  cbn [split_nl].
  destruct (split_nl s) as [|p ps] eqn:E; [now apply split_nl_nonempty in E|].
  destruct (Ascii.eqb c LF) eqn:Ec.
  - exact IH.
  - destruct ps as [|q qs]; [|exact IH].
    cbn in *. now rewrite Ec, IH.
Qed.

Lemma last_app_nonempty {A} (l l' : list A) (d : A) :
  l' <> [] -> last (l ++ l') d = last l' d.
Proof.
  intros H. induction l as [|x l IH]; [reflexivity|].
  cbn. destruct (l ++ l') eqn:E; [|exact IH].
  apply app_eq_nil in E as [_ E]. contradiction.
Qed.

(** Feeding the chunks one by one is splitting the whole text at once. *)
Lemma read_chunks_joined chunks : forall buffer,
  no_newline buffer = true ->
  read_chunks buffer chunks =
  (map strip_cr (removelast (split_nl (buffer ++ joined chunks))),
   last (split_nl (buffer ++ joined chunks)) "").
Proof.
  induction chunks as [|c cs IH]; intros buffer Hb.
  - cbn. rewrite append_nil_r, (split_nl_no_newline _ Hb). reflexivity.
  - cbn [read_chunks read_chunk joined fold_right].
    rewrite (IH _ (last_split_nl_no_newline (buffer ++ c))).
    fold (joined cs).
    rewrite <- append_assoc, (split_nl_app (buffer ++ c) (joined cs)).
    rewrite removelast_app by apply split_nl_nonempty.
    rewrite map_app, last_app_nonempty by apply split_nl_nonempty.
    reflexivity.
Qed.

Lemma split_nl_line r rest :
  no_newline r = true ->
  split_nl (r ++ String LF rest) = r :: split_nl rest.
Proof.
  induction r as [|c r IH]; [reflexivity|].
  cbn. destruct (Ascii.eqb c LF); cbn; [discriminate|].
  intros H. rewrite (IH H). reflexivity.
Qed.

(** The text of well-formed records splits back into the records, and
    nothing is left open. *)
Lemma split_nl_wire records :
  forallb no_newline records = true ->
  split_nl (wire records) = records ++ [""].
Proof.
  induction records as [|r rs IH]; [reflexivity|].
  intros H. apply andb_prop in H as [Hr Hrs].
  change (wire (r :: rs)) with ((r ++ String LF "") ++ wire rs)%string.
  rewrite append_assoc.
  change (String LF "" ++ wire rs)%string with (String LF (wire rs)).
  rewrite (split_nl_line _ _ Hr), (IH Hrs). reflexivity.
Qed.

Lemma strip_cr_cons c s :
  s <> "" -> strip_cr (String c s) = String c (strip_cr s).
Proof. destruct s; [congruence | reflexivity]. Qed.

(** [strip_cr] takes the one carriage return that ends a line. *)
Lemma strip_cr_crlf r : strip_cr (r ++ String CR "") = r.
Proof.
  induction r as [|c r IH]; [reflexivity|].
  change (String c r ++ String CR "")%string
    with (String c (r ++ String CR "")).
  rewrite strip_cr_cons, IH; [reflexivity|].
  destruct r; discriminate.
Qed.

(** C4. Whatever way the text of a sequence of well-formed records (no
    line feed inside a record, one after each) is cut into chunks, cuts
    inside a record and cuts right after a line feed included, the read
    loop hands on the same lines in the same order: every record, with the
    one carriage return that may end it removed, and nothing left in the
    buffer. *)
Theorem decoder_chunking_invariant (records chunks : list string) :
  forallb no_newline records = true ->
  joined chunks = wire records ->
  read_chunks "" chunks = (map strip_cr records, "").
Proof.
  intros Hrec Htext.
  rewrite read_chunks_joined by reflexivity.
  change ("" ++ joined chunks)%string with (joined chunks).
  rewrite Htext, (split_nl_wire _ Hrec).
  rewrite removelast_last, last_last. reflexivity.
Qed.

Lemma decoder_chunking_witness :
  let records := ["data: 1"; ("data: 2" ++ String CR "")%string; ": ping"] in
  let chunks :=
    ["da"; ("ta: 1" ++ String LF "data")%string;
     (": 2" ++ String CR (String LF ""))%string; "";
     (": ping" ++ String LF "")%string] in
  forallb no_newline records = true /\
  joined chunks = wire records /\
  read_chunks "" chunks = (["data: 1"; "data: 2"; ": ping"], "") /\
  payloads (fst (read_chunks "" chunks)) = ["1"; "2"].
Proof.
  cbv zeta. split; [reflexivity|]. split; [reflexivity|].
  rewrite (decoder_chunking_invariant
             ["data: 1"; ("data: 2" ++ String CR "")%string; ": ping"]);
    [split; reflexivity | reflexivity | reflexivity].
Defined.

End DecoderFacts.

(** ** Properties of objects *)

Module JsObjectFacts.
Import JsObject.

Section Obj.
Context {V : Type}.
Implicit Types (o : list (string * V)) (k : string) (v : V).

Lemma get_set_eq k v o : get k (set k v o) = Some v.
Proof.
  induction o as [|[k' v'] o IH]; cbn.
  - now rewrite String.eqb_refl.
  - destruct (String.eqb k k') eqn:E; cbn; rewrite ?String.eqb_refl, ?E; auto.
Qed.

Lemma get_set_ne k k' v o : k <> k' -> get k' (set k v o) = get k' o.
Proof.
  intros Hne. induction o as [|[k0 v0] o IH]; cbn.
  - destruct (String.eqb_spec k' k); congruence.
  - destruct (String.eqb_spec k k0) as [->|]; cbn.
    + destruct (String.eqb_spec k' k0); congruence.
    + now rewrite IH.
Qed.

Lemma keys_set k v o :
  keys (set k v o) =
  match get k o with Some _ => keys o | None => keys o ++ [k] end.
Proof.
  induction o as [|[k0 v0] o IH]; cbn; [reflexivity|].
  destruct (String.eqb_spec k k0) as [->|]; cbn; [reflexivity|].
  unfold keys in IH. rewrite IH. now destruct (get k o).
Qed.

Lemma get_map_values (f : V -> V) k o :
  get k (map_values f o) = option_map f (get k o).
Proof.
  induction o as [|[k0 v0] o IH]; cbn; [reflexivity|].
  now destruct (String.eqb k k0).
Qed.

Lemma keys_map_values (f : V -> V) o : keys (map_values f o) = keys o.
Proof.
  unfold keys, map_values. rewrite map_map. now apply map_ext.
Qed.

Lemma get_mapi_from (f : nat -> V -> V) k o : forall i,
  get k (mapi_from f i o) =
  match index_of k o, get k o with
  | Some j, Some v => Some (f (i + j)%nat v)
  | _, _ => None
  end.
Proof.
  induction o as [|[k0 v0] o IH]; intros i; cbn; [reflexivity|].
  destruct (String.eqb k k0); [now rewrite Nat.add_0_r|].
  rewrite IH. destruct (index_of k o); cbn; [|reflexivity].
  now rewrite Nat.add_succ_r.
Qed.

Lemma keys_mapi_from (f : nat -> V -> V) o : forall i,
  keys (mapi_from f i o) = keys o.
Proof.
  induction o as [|[k0 v0] o IH]; intros i; cbn; [reflexivity|].
  f_equal. apply IH.
Qed.

Lemma index_of_get k o :
  (exists j, index_of k o = Some j) <-> (exists v, get k o = Some v).
Proof.
  induction o as [|[k0 v0] o IH]; cbn.
  - split; intros [? ?]; discriminate.
  - destruct (String.eqb k k0); [split; eauto|].
    rewrite <- IH. destruct (index_of k o); cbn; split; intros [? ?];
      eauto; discriminate.
Qed.

Lemma get_None_not_in k o : get k o = None <-> ~ In k (keys o).
Proof.
  induction o as [|[k0 v0] o IH]; cbn; [tauto|].
  destruct (String.eqb_spec k k0) as [->|Hne].
  - split; [discriminate | intros H; exfalso; auto].
  - rewrite IH. split; [intros H [E|I]; [congruence | auto] | tauto].
Qed.
End Obj.

End JsObjectFacts.

(** ** Properties of the coordinator *)

Module CoordinatorFacts.
Import JsObject JsObjectFacts Decoder Coordinator.

(** *** What each handler does to one worker *)

Lemma worker_on_model_progress m s el p st :
  worker m (handle_event (model_progress m s el p) st) =
  Some {| stage := s;
          startTime := spread_startTime (worker m st);
          currentDuration := Some el;
          progress := p;
          status := running;
          resultSummary := spread_resultSummary (worker m st) |}.
Proof. apply get_set_eq. Qed.

Lemma worker_on_model_complete m el rs res st :
  worker m (handle_event (model_complete m el rs res) st) =
  Some {| stage := "Completed";
          startTime := spread_startTime (worker m st);
          currentDuration := Some el;
          progress := 100;
          status := completed;
          resultSummary := Some rs |}.
Proof. destruct res; apply get_set_eq. Qed.

Lemma worker_on_model_error m s el p st :
  worker m (handle_event (model_error m s el p) st) =
  Some {| stage := string_or s "Failed";
          startTime := spread_startTime (worker m st);
          currentDuration := el;
          progress := number_or_0 p;
          status := failed;
          resultSummary := spread_resultSummary (worker m st) |}.
Proof. apply get_set_eq. Qed.

(** The worker an event writes, if any. *)
Lemma worker_other_event w evt st :
  match evt with
  | model_progress m _ _ _ | model_complete m _ _ _ | model_error m _ _ _ =>
      m <> w
  | _ => True
  end ->
  worker w (handle_event evt st) = worker w st.
Proof.
  destruct evt as [?|m ? ? ?|m ? ? [r|]|m ? ? ?|?|?| |]; cbn;
    intros H; try reflexivity; now apply get_set_ne.
Qed.

Lemma worker_on_tick w now st :
  worker w (with_modelProgress (tick now) st) =
  match index_of w (modelProgress st), worker w st with
  | Some j, Some e => Some (tick_entry now j e)
  | _, _ => None
  end.
Proof. unfold worker, tick. cbn. now rewrite get_mapi_from. Qed.

Lemma worker_on_tick_some w now st e :
  worker w st = Some e ->
  exists j, index_of w (modelProgress st) = Some j /\
            worker w (with_modelProgress (tick now) st) =
            Some (tick_entry now j e).
Proof.
  intros He. destruct (proj2 (index_of_get w (modelProgress st))) as [j Hj];
    [now exists e|].
  exists j. split; [exact Hj|]. rewrite worker_on_tick, Hj, He. reflexivity.
Qed.

Lemma tick_entry_progress_le now j e :
  (progress e <= progress (tick_entry now j e))%Z.
Proof.
  unfold tick_entry. destruct (status e); cbn; try apply Z.le_refl.
  apply Z.le_max_l.
Qed.

Lemma tick_entry_not_running now j e :
  status e <> running -> tick_entry now j e = e.
Proof. unfold tick_entry. now destruct (status e). Qed.

Lemma apply_updates_app us1 us2 st :
  apply_updates (us1 ++ us2) st = apply_updates us2 (apply_updates us1 st).
Proof. apply fold_left_app. Qed.

(** The keys of a run's object are its selected models. *)
Lemma get_fold_set_notin {V} (F : string -> list (string * V) -> V) sel m :
  ~ In m sel ->
  forall o, get m (fold_left (fun o k => set k (F k o) o) sel o) = get m o.
Proof.
  induction sel as [|k sel IH]; intros Hm o; [reflexivity|].
  cbn. rewrite IH by (intros H; apply Hm; now right).
  apply get_set_ne. intros ->. apply Hm. now left.
Qed.

Lemma keys_fold_set_fresh {V} (F : string -> list (string * V) -> V) sel :
  NoDup sel ->
  forall o, (forall k, In k sel -> ~ In k (keys o)) ->
  keys (fold_left (fun o k => set k (F k o) o) sel o) = keys o ++ sel.
Proof.
  induction 1 as [|k sel Hk Hsel IH]; intros o Hfresh; cbn [fold_left].
  - now rewrite app_nil_r.
  - assert (Hget : get k o = None)
      by (apply get_None_not_in, Hfresh; now left).
    rewrite IH.
    + rewrite keys_set, Hget, <- app_assoc. reflexivity.
    + intros k' Hk'. rewrite keys_set, Hget. intros Hin.
      apply in_app_or in Hin as [Hin|[<-|[]]].
      * apply (Hfresh k'); [now right | exact Hin].
      * contradiction.
Qed.

Lemma keys_fold_set_present {V} (F : string -> list (string * V) -> V) sel :
  forall o, (forall k, In k sel -> In k (keys o)) ->
  keys (fold_left (fun o k => set k (F k o) o) sel o) = keys o.
Proof.
  induction sel as [|k sel IH]; intros o Hin; [reflexivity|].
  assert (Hk : keys (set k (F k o) o) = keys o).
  { rewrite keys_set. destruct (get k o) eqn:E; [reflexivity|].
    apply get_None_not_in in E. exfalso. apply E, Hin. now left. }
  cbn [fold_left]. rewrite IH, Hk; [reflexivity|].
  intros k' Hk'. rewrite Hk. apply Hin. now right.
Qed.

(** The workers of a run are numbered as they were selected. *)
Lemma begin_run_keys now selected :
  NoDup selected -> keys (modelProgress (begin_run now selected)) = selected.
Proof.
  intros Hsel. unfold begin_run, start_tracking, initialProgress.
  cbn [modelProgress].
  assert (Hinit :
    keys (fold_left
            (fun o m =>
               set m {| stage := "Initializing...";
                        startTime := Some now;
                        currentDuration := Some 0%Q;
                        progress := 0;
                        status := pending;
                        resultSummary := None |} o) selected []) = selected).
  { apply (keys_fold_set_fresh
             (fun _ _ =>
                {| stage := "Initializing...";
                   startTime := Some now;
                   currentDuration := Some 0%Q;
                   progress := 0;
                   status := pending;
                   resultSummary := None |}) selected Hsel []).
    intros k _ []. }
  rewrite (keys_fold_set_present
             (fun m o =>
                {| stage := "Running research...";
                   startTime := spread_startTime (get m o);
                   currentDuration := spread_currentDuration (get m o);
                   progress := 0;
                   status := running;
                   resultSummary := spread_resultSummary (get m o) |})).
  - exact Hinit.
  - intros k Hk. now rewrite Hinit.
Qed.

Lemma begin_run_not_selected now selected m :
  ~ In m selected -> worker m (begin_run now selected) = None.
Proof.
  intros Hm. unfold worker, begin_run, start_tracking, initialProgress. cbn.
  rewrite (get_fold_set_notin
             (fun m o =>
                {| stage := "Running research...";
                   startTime := spread_startTime (get m o);
                   currentDuration := spread_currentDuration (get m o);
                   progress := 0;
                   status := running;
                   resultSummary := spread_resultSummary (get m o) |}))
    by exact Hm.
  rewrite (get_fold_set_notin
             (fun _ _ =>
                {| stage := "Initializing...";
                   startTime := Some now;
                   currentDuration := Some 0%Q;
                   progress := 0;
                   status := pending;
                   resultSummary := None |}))
    by exact Hm.
  reflexivity.
Qed.

(** C9. A [model_progress] event for worker [m] leaves [m] in the progress
    object with the event's stage, elapsed time and progress and the status
    running.  This holds as well when [m] had no entry (so when [m] is not
    one of the models selected at the start of the run): the event is not
    dropped, a fresh entry is added for [m] after the existing keys. *)
Theorem model_progress_writes_entry (m s : string) (el : Q) (p : Z)
  (st : State) :
  let st' := handle_event (model_progress m s el p) st in
  (exists e, worker m st' = Some e /\
             stage e = s /\ currentDuration e = Some el /\
             progress e = p /\ status e = running) /\
  (worker m st = None ->
   keys (modelProgress st') = keys (modelProgress st) ++ [m] /\
   worker m st' =
   Some {| stage := s; startTime := None; currentDuration := Some el;
           progress := p; status := running; resultSummary := None |}) /\
  (forall now selected,
     ~ In m selected -> worker m (begin_run now selected) = None).
Proof.
  cbv zeta. split; [|split].
  - eexists. split; [apply worker_on_model_progress|]. cbn. auto.
  - intros Hnone. split.
    + cbn [handle_event with_modelProgress modelProgress].
      unfold on_model_progress. rewrite keys_set.
      unfold worker in Hnone. now rewrite Hnone.
    + rewrite worker_on_model_progress, Hnone. reflexivity.
  - intros now selected. apply begin_run_not_selected.
Qed.

(** C10. A [model_error] event marks its worker failed, and sets the
    displayed progress to 0 when the event's progress field is absent or 0,
    whatever the worker showed before, and to the field's value when that
    is present and not 0. *)
Theorem model_error_sets_progress (m : string) (s : option string)
  (el : option Q) (p : option Z) (st : State) :
  let st' := handle_event (model_error m s el p) st in
  status_of m st' = Some failed /\
  (p = None \/ p = Some 0%Z -> progress_of m st' = Some 0%Z) /\
  (forall n, p = Some n -> n <> 0%Z -> progress_of m st' = Some n).
Proof.
  cbv zeta. unfold status_of, progress_of.
  rewrite worker_on_model_error. cbn.
  split; [reflexivity|]. split.
  - intros [-> | ->]; reflexivity.
  - intros n -> Hn. cbn. destruct (Z.eqb_spec n 0); congruence.
Qed.

(** *** The read loop as a sequence of events *)

Lemma handle_event_reading evt st :
  reading (handle_event evt st) = reading st.
Proof. destruct evt as [?|? ? ? ?|? ? ? [?|]|? ? ? ?|?|?| |]; reflexivity. Qed.

Lemma handle_event_sseBuffer evt st :
  sseBuffer (handle_event evt st) = sseBuffer st.
Proof. destruct evt as [?|? ? ? ?|? ? ? [?|]|? ? ? ?|?|?| |]; reflexivity. Qed.

Lemma handle_event_with_sseBuffer evt b st :
  handle_event evt (with_sseBuffer b st) =
  with_sseBuffer b (handle_event evt st).
Proof. destruct evt as [?|? ? ? ?|? ? ? [?|]|? ? ? ?|?|?| |]; reflexivity. Qed.

Lemma handle_events_app evts1 evts2 st :
  handle_events (evts1 ++ evts2) st =
  handle_events evts2 (handle_events evts1 st).
Proof. apply fold_left_app. Qed.

Lemma handle_events_reading evts : forall st,
  reading (handle_events evts st) = reading st.
Proof.
  induction evts as [|evt evts IH]; intros st; [reflexivity|].
  cbn. unfold handle_events in IH. now rewrite IH, handle_event_reading.
Qed.

Lemma handle_events_sseBuffer evts : forall st,
  sseBuffer (handle_events evts st) = sseBuffer st.
Proof.
  induction evts as [|evt evts IH]; intros st; [reflexivity|].
  cbn. unfold handle_events in IH. now rewrite IH, handle_event_sseBuffer.
Qed.

Lemma handle_events_with_sseBuffer evts b : forall st,
  handle_events evts (with_sseBuffer b st) =
  with_sseBuffer b (handle_events evts st).
Proof.
  induction evts as [|evt evts IH]; intros st; [reflexivity|].
  cbn. unfold handle_events in IH.
  now rewrite handle_event_with_sseBuffer, IH.
Qed.

Lemma with_sseBuffer_twice b b' st :
  with_sseBuffer b (with_sseBuffer b' st) = with_sseBuffer b st.
Proof. reflexivity. Qed.

Section Loop.
Variable JSON_parse : string -> option Event.

Lemma parsed_events_app lines1 lines2 :
  parsed_events JSON_parse (lines1 ++ lines2) =
  parsed_events JSON_parse lines1 ++ parsed_events JSON_parse lines2.
Proof.
  induction lines1 as [|l ls IH]; [reflexivity|].
  cbn [parsed_events app]. destruct (data_payload l) as [payload|]; [|exact IH].
  destruct (JSON_parse payload); [|exact IH]. cbn [app]. now rewrite IH.
Qed.

Lemma process_lines_events lines : forall st,
  fold_left (fun s line => process_line JSON_parse line s) lines st =
  handle_events (parsed_events JSON_parse lines) st.
Proof.
  induction lines as [|l ls IH]; intros st; [reflexivity|].
  cbn [fold_left parsed_events]. rewrite IH. unfold process_line.
  destruct (data_payload l) as [payload|]; [|reflexivity].
  now destruct (JSON_parse payload).
Qed.

(** One turn of the loop handles the events of the lines the chunk
    closes, in order. *)
Lemma process_chunk_events value st :
  process_chunk JSON_parse value st =
  handle_events
    (parsed_events JSON_parse (fst (read_chunk (sseBuffer st) value)))
    (with_sseBuffer (snd (read_chunk (sseBuffer st) value)) st).
Proof.
  unfold process_chunk. cbn [read_chunk fst snd]. apply process_lines_events.
Qed.

(** A stream read to its last chunk: the events of the decoded lines, and
    the open line in the buffer. *)
Lemma run_chunks_events chunks : forall st,
  reading st = true ->
  run JSON_parse (map Chunk chunks) st =
  handle_events
    (parsed_events JSON_parse (fst (read_chunks (sseBuffer st) chunks)))
    (with_sseBuffer (snd (read_chunks (sseBuffer st) chunks)) st).
Proof.
  induction chunks as [|c cs IH]; intros st Hr.
  - cbn. now destruct st.
  - cbn [map run fold_left step]. rewrite Hr. fold (run JSON_parse).
    change (fold_left (fun s i => step JSON_parse i s) (map Chunk cs))
      with (run JSON_parse (map Chunk cs)).
    rewrite process_chunk_events, IH
      by (now rewrite handle_events_reading).
    rewrite handle_events_sseBuffer. cbn [sseBuffer with_sseBuffer].
    cbn [read_chunks].
    destruct (read_chunk (sseBuffer st) c) as [lines b]. cbn [fst snd].
    destruct (read_chunks b cs) as [lines' final]. cbn [fst snd].
    rewrite parsed_events_app, handle_events_app.
    now rewrite <- handle_events_with_sseBuffer, with_sseBuffer_twice.
Qed.

(** The state a stream leaves does not depend on how its text was cut. *)
Lemma run_chunks_cut_independent chunks1 chunks2 st :
  joined chunks1 = joined chunks2 ->
  reading st = true -> no_newline (sseBuffer st) = true ->
  run JSON_parse (map Chunk chunks1) st =
  run JSON_parse (map Chunk chunks2) st.
Proof.
  intros Htext Hr Hb.
  rewrite !run_chunks_events by exact Hr.
  rewrite !DecoderFacts.read_chunks_joined by exact Hb.
  now rewrite Htext.
Qed.

End Loop.

(** *** Displayed progress along a run *)

(** C1.  Displayed progress is to be replaced with the maximum of the
    server's value and the value shown, and so never to go down.  The tick
    does take that maximum; the [model_progress] handler does not, it
    writes the server's value as it is.  In the run below worker "b" shows
    13 after half a minute of ticks, a [model_progress] reporting 5 takes
    it down to 5 where the maximum is 13, and the next tick puts it at 14:
    the displayed progress goes down and up again. *)
Theorem model_progress_regresses_until_tick :
  let st0 := begin_run 0 ["a"; "b"] in
  let st1 := apply_updates [LocalTick 1000; LocalTick 30000] st0 in
  let st2 :=
    apply_update (ServerEvent (model_progress "b" "Searching" 31 5)) st1 in
  let st3 := apply_update (LocalTick 31000) st2 in
  (status_of "b" st1 = Some running /\
   progress_of "b" st1 = Some 13%Z /\
   progress_of "b" st2 = Some 5%Z /\ Z.max 5 13 = 13%Z /\
   progress_of "b" st3 = Some 14%Z) /\
  (forall m s el p st,
     progress_of m (handle_event (model_progress m s el p) st) = Some p) /\
  (forall now j e, (progress e <= progress (tick_entry now j e))%Z).
Proof.
  cbv zeta. split; [repeat split|]. split.
  - intros. unfold progress_of. now rewrite worker_on_model_progress.
  - intros. apply tick_entry_progress_le.
Qed.

(** *** Terminal states *)

Lemma completed_update_kept w u st e :
  overwrites w u = false ->
  worker w st = Some e -> status e = completed -> progress e = 100%Z ->
  exists e', worker w (apply_update u st) = Some e' /\
             status e' = completed /\ progress e' = 100%Z.
Proof.
  intros Hu He Hst Hp.
  assert (Hother : forall evt,
             match evt with
             | model_progress m _ _ _ | model_complete m _ _ _
             | model_error m _ _ _ => m <> w
             | _ => True
             end ->
             exists e', worker w (apply_update (ServerEvent evt) st) = Some e' /\
                        status e' = completed /\ progress e' = 100%Z).
  { intros evt Hevt. exists e. cbn [apply_update].
    rewrite worker_other_event by exact Hevt. now repeat split. }
  destruct u as [evt|now].
  - destruct evt as [?|m ? ? ?|m ? ? ?|m ? ? ?|?|?| |];
      try (apply Hother; exact I).
    + apply Hother. cbn in Hu. now apply String.eqb_neq.
    + destruct (String.eqb_spec m w) as [->|Hne]; [|now apply Hother].
      eexists. split; [apply worker_on_model_complete|]. now split.
    + apply Hother. cbn in Hu. now apply String.eqb_neq.
  - destruct (worker_on_tick_some w now st e He) as (j & _ & Hj).
    exists e. split; [|now split].
    cbn [apply_update]. rewrite Hj, tick_entry_not_running; congruence.
Qed.

Lemma completed_updates_kept w us : forall st e,
  forallb (fun u => negb (overwrites w u)) us = true ->
  worker w st = Some e -> status e = completed -> progress e = 100%Z ->
  exists e', worker w (apply_updates us st) = Some e' /\
             status e' = completed /\ progress e' = 100%Z.
Proof.
  induction us as [|u us IH]; intros st e Hus He Hst Hp.
  - exists e. now repeat split.
  - cbn in Hus. apply andb_prop in Hus as [Hu Hus].
    apply negb_true_iff in Hu.
    destruct (completed_update_kept w u st e Hu He Hst Hp)
      as (e1 & He1 & Hst1 & Hp1).
    exact (IH _ e1 Hus He1 Hst1 Hp1).
Qed.

(** C2, as the code has it.  After [model_complete] for worker [w], [w]
    shows progress 100 and the status completed, and both stay so through
    every later tick and every later event that is not a [model_progress]
    or a [model_error] for [w].  Those two are not ignored for a completed
    worker: [model_progress] makes it running again with the event's
    progress, [model_error] makes it failed. *)
Theorem completed_until_overwritten (w : string) (el : Q)
  (rs : ResultSummary) (res : option ComparisonResult)
  (us : list Update) (st : State) :
  forallb (fun u => negb (overwrites w u)) us = true ->
  let st1 := handle_event (model_complete w el rs res) st in
  (status_of w st1 = Some completed /\ progress_of w st1 = Some 100%Z) /\
  (status_of w (apply_updates us st1) = Some completed /\
   progress_of w (apply_updates us st1) = Some 100%Z) /\
  (forall s el' p,
     let st2 := handle_event (model_progress w s el' p)
                  (apply_updates us st1) in
     status_of w st2 = Some running /\ progress_of w st2 = Some p) /\
  (forall s el' p,
     let st2 := handle_event (model_error w s el' p)
                  (apply_updates us st1) in
     status_of w st2 = Some failed /\
     progress_of w st2 = Some (number_or_0 p)).
Proof.
  intros Hus. cbv zeta. unfold status_of, progress_of.
  split; [|split; [|split]].
  - now rewrite worker_on_model_complete.
  - destruct (completed_updates_kept w us
                (handle_event (model_complete w el rs res) st) _ Hus
                (worker_on_model_complete w el rs res st) eq_refl eq_refl)
      as (e' & -> & Hst & Hp).
    cbn. now rewrite Hst, Hp.
  - intros. now rewrite worker_on_model_progress.
  - intros. now rewrite worker_on_model_error.
Qed.

Lemma completed_until_overwritten_witness :
  let rs := {| rs_word_count := 1200; rs_sources_found := 8;
               rs_duration := 9 |} in
  let us := [LocalTick 20000;
             ServerEvent (model_progress "b" "Writing" 21 60);
             ServerEvent heartbeat;
             ServerEvent (model_error "b" None None None);
             ServerEvent (model_complete "a" 22 rs None)] in
  let st1 := handle_event (model_complete "a" 9 rs None)
               (begin_run 0 ["a"; "b"]) in
  forallb (fun u => negb (overwrites "a" u)) us = true /\
  status_of "a" (apply_updates us st1) = Some completed /\
  progress_of "a" (apply_updates us st1) = Some 100%Z.
Proof.
  cbv zeta. split; [reflexivity|].
  exact (proj1 (proj2 (completed_until_overwritten "a" 9
           {| rs_word_count := 1200; rs_sources_found := 8;
              rs_duration := 9 |} None
           [LocalTick 20000;
            ServerEvent (model_progress "b" "Writing" 21 60);
            ServerEvent heartbeat;
            ServerEvent (model_error "b" None None None);
            ServerEvent (model_complete "a" 22
              {| rs_word_count := 1200; rs_sources_found := 8;
                 rs_duration := 9 |} None)]
           (begin_run 0 ["a"; "b"]) eq_refl))).
Defined.

(** C2 as stated fails: a [model_progress] that arrives for a completed
    worker is not ignored; the worker is running again, at 40. *)
Lemma completed_worker_runs_again :
  let rs := {| rs_word_count := 1200; rs_sources_found := 8;
               rs_duration := 9 |} in
  let st1 := handle_event (model_complete "a" 9 rs None)
               (begin_run 0 ["a"]) in
  let st2 := handle_event (model_progress "a" "Writing" 10 40) st1 in
  status_of "a" st1 = Some completed /\ progress_of "a" st1 = Some 100%Z /\
  status_of "a" st2 = Some running /\ progress_of "a" st2 = Some 40%Z.
Proof. cbv zeta. repeat split. Qed.

(** *** Timeout and stop *)

(** C3, as the code has it.  When the six-minute timer fires while the
    stream is read, the reader is cancelled: the read loop ends as at the
    end of the stream, the run is no longer running, and no later chunk or
    tick changes anything.  Every worker's entry is left as it was: no
    worker is marked failed and no stage label is written. *)
Theorem stream_timeout_ends_run (JSON_parse : string -> option Event)
  (refresh : option string) (st : State) :
  reading st = true ->
  let st' := step JSON_parse (StreamTimeout refresh) st in
  modelProgress st' = modelProgress st /\
  isRunning st' = false /\ reading st' = false /\
  (forall value, step JSON_parse (Chunk value) st' = st') /\
  (forall now, step JSON_parse (Tick now) st' = st').
Proof.
  intros Hr. cbv zeta. cbn. rewrite Hr. cbn. repeat split.
Qed.

Lemma stream_timeout_ends_run_witness :
  let st := begin_run 0 ["a"; "b"] in
  let st' := step (fun _ => None) (StreamTimeout None) st in
  reading st = true /\
  modelProgress st' = modelProgress st /\
  isRunning st' = false /\ reading st' = false.
Proof.
  cbv zeta. split; [reflexivity|].
  pose proof (stream_timeout_ends_run (fun _ => None) None
                (begin_run 0 ["a"; "b"]) eq_refl) as H.
  cbv zeta in H. destruct H as (H1 & H2 & H3 & _).
  exact (conj H1 (conj H2 H3)).
Defined.

(** C3 as stated fails: after the timeout a running worker is still
    running, under the stage label it had. *)
Lemma timeout_leaves_worker_running :
  let st := begin_run 0 ["a"; "b"] in
  let st' := step (fun _ => None) (StreamTimeout None) st in
  status_of "a" st = Some running /\
  status_of "a" st' = Some running /\
  option_map stage (worker "a" st') = Some "Running research..." /\
  status_of "a" st' <> Some failed.
Proof. cbv zeta. repeat split. discriminate. Qed.

(** C5. [stop] turns exactly the running and the pending workers into
    failed ones with the stage label "Stopped by user", and changes nothing
    else in them; the entry of a completed (or failed) worker is left as it
    is, and no worker is added or removed.  The run is no longer running,
    and the run-level error is what it was: the abort is not reported. *)
Theorem stop_fails_unfinished_workers (JSON_parse : string -> option Event)
  (st : State) :
  let st' := step JSON_parse Stop st in
  (forall w e,
     worker w st = Some e -> status e = running \/ status e = pending ->
     worker w st' =
     Some {| stage := "Stopped by user"; startTime := startTime e;
             currentDuration := currentDuration e; progress := progress e;
             status := failed; resultSummary := resultSummary e |}) /\
  (forall w e,
     worker w st = Some e -> status e = completed \/ status e = failed ->
     worker w st' = Some e) /\
  keys (modelProgress st') = keys (modelProgress st) /\
  isRunning st' = false /\ reading st' = false /\
  error st' = error st.
Proof.
  cbv zeta. unfold worker. cbn.
  split; [|split; [|split; [apply keys_map_values | auto]]].
  - intros w e He Hst. rewrite get_map_values, He. cbn.
    unfold stop_entry. now destruct Hst as [-> | ->].
  - intros w e He Hst. rewrite get_map_values, He. cbn.
    unfold stop_entry. now destruct Hst as [-> | ->].
Qed.

(** *** Stream-level errors *)





(** *** Early results *)




Lemma filter_idem {A} (f : A -> bool) (l : list A) :
  filter f (filter f l) = filter f l.
Proof.
  induction l as [|x l IH]; [reflexivity|].
  cbn. destruct (f x) eqn:E; cbn; [|exact IH]. now rewrite E, IH.
Qed.






(** *** The synthetic estimate *)

Lemma Qltb_adjusted el d : Qltb 0 (Qmax 0 (el - d)) = Qltb d el.
Proof.
  unfold Qltb. f_equal. apply eq_true_iff_eq.
  rewrite !Qle_bool_iff, Q.max_lub_iff. split.
  - intros [_ H]. lra.
  - intros H. split; lra.
Qed.

Lemma tick_entry_running_progress now i e :
  status e = running -> (progress e < 15)%Z ->
  progress (tick_entry now i e) =
  match elapsed_at now (startTime e) with
  | Some elapsed =>
      if Qltb (modelDelay i) elapsed
      then spec_tick_progress (progress e) elapsed i
      else progress e
  | None => progress e
  end.
Proof.
  intros Hst Hp. unfold tick_entry. rewrite Hst. cbn [progress].
  destruct (elapsed_at now (startTime e)) as [el|];
    unfold adjustedElapsed, syntheticProgress; [|apply Z.max_id].
  apply Z.ltb_lt in Hp. rewrite Hp, Qltb_adjusted. cbn [andb].
  apply Z.ltb_lt in Hp.
  destruct (Qltb (modelDelay i) el); unfold spec_tick_progress; lia.
Qed.

(** C6, as the code has it.  On a tick, a running worker at position [i]
    among the keys of the progress object, showing less than 15, gets
    [max(current, min(15, 1 + floor(max(0, elapsed - (2 + 1.2 i)) *
    (0.35 + 0.12 i))))] when its elapsed time is defined and exceeds the
    delay [2 + 1.2 i]; until then, and when it has no start time, its
    progress is left as it is (a worker at 0 stays at 0).  The result is
    never below the current value and never above 15. *)
Theorem tick_synthetic_progress (JSON_parse : string -> option Event)
  (now : Z) (w : string) (i : nat) (e : WorkerProgress) (st : State) :
  isRunning st = true ->
  worker w st = Some e ->
  index_of w (modelProgress st) = Some i ->
  status e = running ->
  (progress e < 15)%Z ->
  let st' := step JSON_parse (Tick now) st in
  progress_of w st' =
  Some match elapsed_at now (startTime e) with
       | Some elapsed =>
           if Qltb (modelDelay i) elapsed
           then spec_tick_progress (progress e) elapsed i
           else progress e
       | None => progress e
       end /\
  (exists p', progress_of w st' = Some p' /\ (progress e <= p' <= 15)%Z) /\
  modelDelay i == 2 + inject_Z (Z.of_nat i) * 1.2 /\
  modelRate i == 0.35 + inject_Z (Z.of_nat i) * 0.12.
Proof.
  intros Hrun He Hi Hst Hp. cbv zeta. cbn [step]. rewrite Hrun.
  unfold progress_of. rewrite worker_on_tick, Hi, He. cbn [option_map].
  rewrite (tick_entry_running_progress now i e Hst Hp).
  split; [reflexivity|]. split; [|split; reflexivity].
  eexists. split; [reflexivity|].
  destruct (elapsed_at now (startTime e)) as [el|]; [|lia].
  destruct (Qltb (modelDelay i) el); unfold spec_tick_progress; lia.
Qed.

Lemma tick_synthetic_progress_witness :
  let st := begin_run 0 ["a"; "b"] in
  let st' := step (fun _ => None) (Tick 12000) st in
  isRunning st = true /\
  index_of "b" (modelProgress st) = Some 1%nat /\
  status_of "b" st = Some running /\
  progress_of "b" st = Some 0%Z /\
  progress_of "b" st' = Some 5%Z /\
  spec_tick_progress 0 12 1 = 5%Z.
Proof.
  cbv zeta. do 4 (split; [reflexivity|]). split; [|reflexivity].
  exact (eq_trans (proj1 (tick_synthetic_progress (fun _ => None) 12000
                            "b" 1 _ (begin_run 0 ["a"; "b"])
                            eq_refl eq_refl eq_refl eq_refl eq_refl))
                  eq_refl).
Defined.

(** C6 as stated fails: at the first tick, one second into the run, the
    first worker shows 0 and keeps 0, where the formula of the claim gives
    [max(0, min(15, 1 + 0)) = 1]. *)
Lemma first_tick_keeps_zero :
  let st := begin_run 0 ["a"] in
  let st' := step (fun _ => None) (Tick 1000) st in
  status_of "a" st = Some running /\
  progress_of "a" st = Some 0%Z /\
  index_of "a" (modelProgress st) = Some 0%nat /\
  progress_of "a" st' = Some 0%Z /\
  spec_tick_progress 0 (inject_Z (1000 - 0) / 1000) 0 = 1%Z.
Proof. cbv zeta. repeat split. Qed.

(** *** Worked runs *)

(** The filter of the upsert goes by the event's worker, the entry by the
    result's own [model]: a result filed under another worker's event is
    put beside that worker's entry.  This is why C7 asks each event to
    carry the result of its own worker. *)
Example mismatched_result_is_appended :
  let timings := {| clarification := 1; research_brief := 2;
                    research_execution := 3; final_report := 3 |} in
  let result m :=
    {| model := m; duration := 9; stage_timings := timings;
       sources_found := 8; word_count := 1200; success := true;
       result_error := None; report_content := "report";
       supervisor_tools_used := [] |} in
  map model (upsert_result "a" (result "b") [result "b"]) = ["b"; "b"].
Proof. reflexivity. Qed.

(** An [error] event without a message, or with an empty one, sets the
    default text; the run-level error is never the empty string. *)
Lemma stream_error_message_default message st :
  exists text,
    error (handle_event (stream_error message) st) = Some text /\
    text <> "" /\
    (message = None \/ message = Some "" -> text = "Backend stream error").
Proof.
  eexists. split; [reflexivity|]. split.
  - destruct message as [[|c msg]|]; discriminate.
  - intros [-> | ->]; reflexivity.
Qed.

(** Stop with two workers running and one completed. *)
Example stop_two_running_one_completed :
  let rs := {| rs_word_count := 1200; rs_sources_found := 8;
               rs_duration := 9 |} in
  let st := handle_event (model_complete "c" 9 rs None)
              (begin_run 0 ["a"; "b"; "c"]) in
  let st' := step (fun _ => None) Stop st in
  worker "c" st' = worker "c" st /\
  status_of "c" st' = Some completed /\
  status_of "a" st' = Some failed /\
  status_of "b" st' = Some failed /\
  option_map stage (worker "a" st') = Some "Stopped by user" /\
  isRunning st' = false /\ error st' = None.
Proof. cbv zeta. repeat split. Qed.

(** The example run of the specification: progress for both workers,
    then one completes and the other fails. *)
Example run_of_two_workers :
  let rs := {| rs_word_count := 1200; rs_sources_found := 8;
               rs_duration := 9 |} in
  let timings := {| clarification := 1; research_brief := 2;
                    research_execution := 3; final_report := 3 |} in
  let result :=
    {| model := "a"; duration := 9; stage_timings := timings;
       sources_found := 8; word_count := 1200; success := true;
       result_error := None; report_content := "report";
       supervisor_tools_used := [] |} in
  let st := handle_events
              [model_progress "a" "Searching" 3 40;
               model_progress "b" "Searching" 3 20;
               model_complete "a" 9 rs (Some result);
               model_error "b" (Some "timeout") None None]
              (begin_run 0 ["a"; "b"]) in
  status_of "a" st = Some completed /\ progress_of "a" st = Some 100%Z /\
  status_of "b" st = Some failed /\ progress_of "b" st = Some 0%Z /\
  earlyResults st = [result].
Proof. cbv zeta. repeat split. Qed.

(** A chunk cut in the middle of a record and one cut after a line feed
    lead the run to the same state. *)
Example run_cut_twice :
  let parse payload :=
    if String.eqb payload "beat" then Some heartbeat
    else if String.eqb payload "a40"
         then Some (model_progress "a" "Searching" 3 40)
         else None in
  let st := begin_run 0 ["a"] in
  let record1 := ("data: a40" ++ String LF "")%string in
  let record2 := ("data: beat" ++ String CR (String LF ""))%string in
  run parse [Chunk ("data: " ++ "a4"); Chunk ("0" ++ String LF "data: be");
             Chunk ("at" ++ String CR (String LF ""))] st =
  run parse [Chunk record1; Chunk record2] st /\
  progress_of "a" (run parse [Chunk record1; Chunk record2] st) = Some 40%Z.
Proof. cbv zeta. split; reflexivity. Qed.

End CoordinatorFacts.

(** ** Properties of the component *)

Module ComponentFacts.
Import JsObject JsObjectFacts Decoder Coordinator CoordinatorFacts Component.

(** *** [trim] *)

Lemma trim_start_head s :
  trim_start s = [] \/
  exists c t, trim_start s = c :: t /\ is_space c = false.
Proof.
  induction s as [|c s IH]; [now left|].
  cbn [trim_start]. destruct (is_space c) eqn:E; [exact IH|].
  right. now exists c, s.
Qed.

Lemma trim_end_head c s :
  is_space c = false -> exists t, trim_end (c :: s) = c :: t.
Proof.
  intros Hc. cbn [trim_end]. destruct (trim_end s) as [|d t].
  - rewrite Hc. now exists [].
  - now exists (d :: t).
Qed.

Lemma trim_end_idem s : trim_end (trim_end s) = trim_end s.
Proof.
  induction s as [|c s IH]; [reflexivity|].
  cbn [trim_end]. destruct (trim_end s) as [|d t] eqn:E.
  - destruct (is_space c) eqn:Ec; [reflexivity|]. cbn [trim_end].
    now rewrite Ec.
  - cbn [trim_end]. cbn [trim_end] in IH.
    destruct (match trim_end t with
              | [] => if is_space d then [] else [d]
              | a :: r => d :: a :: r
              end) eqn:E2; [discriminate|].
    now rewrite IH.
Qed.

(** Trimming what is trimmed changes nothing: no white space is left at
    either end. *)
Lemma trim_idem s : trim (trim s) = trim s.
Proof.
  unfold trim.
  destruct (trim_start_head s) as [-> | (c & t & -> & Hc)]; [reflexivity|].
  destruct (trim_end_head c t Hc) as [t' Ht]. rewrite Ht.
  cbn [trim_start]. rewrite Hc, <- Ht. apply trim_end_idem.
Qed.

Lemma trim_truthy_nonempty s : truthy (trim s) = true -> s <> [].
Proof. now destruct s. Qed.

(** What [trim] leaves has no white space at its first place, and
    [trim] strips the white space that is not ASCII as well. *)
Lemma trim_no_leading_space s c t : trim s = c :: t -> is_space c = false.
Proof.
  unfold trim.
  destruct (trim_start_head s) as [-> | (d & u & -> & Hd)]; [discriminate|].
  destruct (trim_end_head d u Hd) as [u' ->]. now intros [= <- _].
Qed.

(** *** The guards of [runComparison] *)

Lemma existsb_filter_nil {A} (f : A -> bool) (l : list A) :
  existsb f l = false <-> filter f l = [].
Proof.
  induction l as [|x l IH]; cbn; [tauto|].
  destruct (f x); cbn; [split; discriminate | exact IH].
Qed.

Lemma run_disabled_false c :
  run_disabled c = false <->
  truthy (trim (query c)) = true /\
  selectedModels (coordinator c) <> [] /\
  missingKeys (apiKeys c) (selectedModels (coordinator c)) = [].
Proof.
  unfold run_disabled, missingKeys. rewrite !orb_false_iff, negb_false_iff.
  rewrite existsb_filter_nil.
  destruct (selectedModels (coordinator c)); cbn; intuition congruence.
Qed.

(** [runComparison] starts a run exactly when the run button is enabled.
    With a blank query or no model selected it changes nothing at all;
    with a key missing it only writes the run-level error, the message
    that lists the models without a key. *)
Theorem run_starts_when_enabled (availableModels : list AvailableModel)
  (now : Z) (c : Component) :
  let selected := selectedModels (coordinator c) in
  let c' := runComparison availableModels now c in
  (run_disabled c = false ->
   c' = with_coordinator (fun _ => begin_run now selected) c) /\
  (truthy (trim (query c)) = false \/ selected = [] -> c' = c) /\
  (run_disabled c = true ->
   isRunning (coordinator c') = isRunning (coordinator c) /\
   modelProgress (coordinator c') = modelProgress (coordinator c) /\
   earlyResults (coordinator c') = earlyResults (coordinator c) /\
   latestSession (coordinator c') = latestSession (coordinator c) /\
   reading (coordinator c') = reading (coordinator c)) /\
  (truthy (trim (query c)) = true -> selected <> [] ->
   missingKeys (apiKeys c) selected <> [] ->
   error (coordinator c') =
   Some (missing_keys_message availableModels
           (missingKeys (apiKeys c) selected))).
Proof.
  cbv zeta. unfold runComparison.
  split; [|split; [|split]].
  - intros H. apply run_disabled_false in H as (Hq & Hs & Hm).
    rewrite Hq, Hm. destruct (selectedModels (coordinator c));
      [contradiction | reflexivity].
  - intros [Hq | Hs]; [now rewrite Hq | rewrite Hs; now rewrite orb_true_r].
  - intros H.
    destruct (negb (truthy (trim (query c)))
              || (List.length (selectedModels (coordinator c)) =? 0)%nat)
      eqn:E1; [now repeat split|].
    destruct (missingKeys (apiKeys c) (selectedModels (coordinator c)))
      eqn:E2; [|now repeat split].
    exfalso. apply orb_false_iff in E1 as [Hq Hs].
    apply negb_false_iff in Hq.
    assert (run_disabled c = false); [|congruence].
    apply run_disabled_false. repeat split; auto.
    intros Hnil. now rewrite Hnil in Hs.
  - intros Hq Hs Hm. rewrite Hq.
    destruct (selectedModels (coordinator c)) eqn:Es; [contradiction|].
    cbn [negb orb List.length Nat.eqb].
    destruct (missingKeys (apiKeys c) (s :: l)); [contradiction|].
    reflexivity.
Qed.

(** A query of ideographic and em spaces is blank, as [trim] has it:
    the button is disabled and [runComparison] does nothing. *)
Example unicode_blank_query_does_not_run :
  let st := {| selectedModels := ["zhipu"]; isRunning := false;
               error := None; modelProgress := []; earlyResults := [];
               latestSession := None; sseBuffer := ""; reading := false |} in
  let c := {| coordinator := st; query := [12288; 8195; 65279]%N;
              apiKeys := [("zhipu", code_units "zk-1")];
              selectedResult := None |} in
  run_disabled c = true /\ runComparison [] 0 c = c.
Proof. cbv zeta. split; reflexivity. Qed.

(** *** The request *)

Lemma get_fold_set_in {V} (G : string -> V) sel m :
  In m sel ->
  forall o, get m (fold_left (fun o k => set k (G k) o) sel o) = Some (G m).
Proof.
  induction sel as [|k sel IH]; intros Hin o; [contradiction|].
  cbn [fold_left].
  destruct (in_dec string_dec m sel) as [Hm|Hm]; [now apply IH|].
  destruct Hin as [->|Hin]; [|contradiction].
  rewrite (get_fold_set_notin (fun k _ => G k)) by exact Hm.
  apply get_set_eq.
Qed.

Lemma has_key_get keys m :
  has_key keys m = true ->
  exists key, get m keys = Some key /\ truthy (trim key) = true.
Proof.
  unfold has_key. destruct (get m keys) as [key|]; [|discriminate].
  intros H. now exists key.
Qed.

Lemma missingKeys_nil_has_key keys selected m :
  missingKeys keys selected = [] -> In m selected -> has_key keys m = true.
Proof.
  intros Hnil Hin. destruct (has_key keys m) eqn:E; [reflexivity|].
  assert (Hm : In m (missingKeys keys selected)).
  { apply filter_In. split; [exact Hin|]. now rewrite E. }
  rewrite Hnil in Hm. contradiction.
Qed.

(** When the run button is enabled, the request sends the selected
    models, for each of them the key the research context holds, which is
    not blank, and the key of no other model; the query it sends is not
    empty and has no white space left at either end. *)
Theorem request_carries_selected_keys (c : Component) :
  run_disabled c = false ->
  let '(sent_query, models, api_keys) := request_body c in
  truthy sent_query = true /\ trim sent_query = sent_query /\
  models = selectedModels (coordinator c) /\
  (forall m, In m models ->
     exists key, get m api_keys = Some key /\
                 get m (apiKeys c) = Some key /\
                 truthy (trim key) = true) /\
  (forall m, ~ In m models -> get m api_keys = None).
Proof.
  intros H. apply run_disabled_false in H as (Hq & _ & Hm).
  unfold request_body.
  split; [exact Hq|]. split; [apply trim_idem|]. split; [reflexivity|]. split.
  - intros m Hin.
    destruct (has_key_get _ _ (missingKeys_nil_has_key _ _ _ Hm Hin))
      as (key & Hget & Hkey).
    exists key. split; [|now split].
    unfold modelApiKeys.
    rewrite (get_fold_set_in (fun m => key_or_empty (get m (apiKeys c))))
      by exact Hin.
    rewrite Hget. cbn. destruct key; [discriminate | reflexivity].
  - intros m Hin. unfold modelApiKeys.
    now rewrite (get_fold_set_notin
                   (fun m _ => key_or_empty (get m (apiKeys c)))).
Qed.

Lemma request_carries_selected_keys_witness :
  let st := {| selectedModels := ["zhipu"; "kimi"]; isRunning := false;
               error := None; modelProgress := []; earlyResults := [];
               latestSession := None; sseBuffer := ""; reading := false |} in
  let c := {| coordinator := st;
              query := [12288%N] ++ code_units " compare "
                       ++ [20320; 22909; 8195]%N;
              apiKeys := [("zhipu", code_units "zk-1");
                          ("deepseek", [12288%N]);
                          ("kimi", code_units " kk-2")];
              selectedResult := None |} in
  run_disabled c = false /\
  request_body c =
  (code_units "compare " ++ [20320; 22909]%N, ["zhipu"; "kimi"],
   [("zhipu", code_units "zk-1"); ("kimi", code_units " kk-2")]) /\
  trim (fst (fst (request_body c))) = fst (fst (request_body c)).
Proof.
  cbv zeta. split; [reflexivity|]. split; [reflexivity|].
  match goal with
  | |- trim (fst (fst (request_body ?c))) = _ =>
      exact (proj1 (proj2 (request_carries_selected_keys c eq_refl)))
  end.
Defined.

(** *** Keys configured *)

Lemma get_In {V} m (v : V) o : get m o = Some v -> In (m, v) o.
Proof.
  induction o as [|[k v0] o IH]; cbn; [discriminate|].
  destruct (String.eqb_spec m k) as [->|].
  - intros [= ->]. now left.
  - intros H. right. now apply IH.
Qed.

(** The run button is enabled only when the badge of configured keys
    counts at least as many keys as there are models selected. *)
Theorem enabled_run_has_enough_keys (c : Component) :
  run_disabled c = false ->
  NoDup (selectedModels (coordinator c)) ->
  (List.length (selectedModels (coordinator c))
   <= getKeysConfigured (apiKeys c))%nat.
Proof.
  intros H Hnd. apply run_disabled_false in H as (_ & _ & Hm).
  unfold getKeysConfigured.
  rewrite <- (length_map fst (filter _ (apiKeys c))).
  apply NoDup_incl_length; [exact Hnd|].
  intros m Hin.
  destruct (has_key_get _ _ (missingKeys_nil_has_key _ _ _ Hm Hin))
    as (key & Hget & Hkey).
  apply in_map_iff. exists (m, key). split; [reflexivity|].
  apply filter_In. split; [now apply get_In | exact Hkey].
Qed.

Lemma enabled_run_has_enough_keys_witness :
  let st := {| selectedModels := ["zhipu"; "kimi"]; isRunning := false;
               error := None; modelProgress := []; earlyResults := [];
               latestSession := None; sseBuffer := ""; reading := false |} in
  let c := {| coordinator := st; query := code_units "q";
              apiKeys := [("zhipu", code_units "zk-1");
                          ("deepseek", [12288; 160]%N);
                          ("kimi", code_units "kk-2")];
              selectedResult := None |} in
  run_disabled c = false /\ getKeysConfigured (apiKeys c) = 2%nat /\
  (List.length (selectedModels (coordinator c))
   <= getKeysConfigured (apiKeys c))%nat.
Proof.
  cbv zeta. split; [reflexivity|]. split; [reflexivity|].
  match goal with
  | |- (List.length (selectedModels (coordinator ?c)) <= _)%nat =>
      refine (enabled_run_has_enough_keys c eq_refl _)
  end.
  repeat constructor; cbn; intuition discriminate.
Defined.

(** *** Reset *)

(** After [resetComparison] the query, the progress, the early results,
    the session and the error are empty and nothing runs; neither panel
    condition holds; and what still arrives from the old stream, the
    interval or the stop button changes nothing.  Resetting twice is
    resetting once. *)
Theorem reset_clears_and_silences (JSON_parse : string -> option Event)
  (inputs : list Input) (c : Component) :
  let c' := resetComparison c in
  run JSON_parse inputs (coordinator c') = coordinator c' /\
  (query c' = [] /\ selectedResult c' = None /\
   error (coordinator c') = None /\ modelProgress (coordinator c') = [] /\
   earlyResults (coordinator c') = [] /\
   latestSession (coordinator c') = None /\
   isRunning (coordinator c') = false) /\
  shows_progress_panel (coordinator c') = false /\
  shows_new_comparison (coordinator c') = false /\
  selectedModels (coordinator c') = selectedModels (coordinator c) /\
  resetComparison c' = c'.
Proof.
  cbv zeta. split; [|now repeat split].
  induction inputs as [|i inputs IH]; [reflexivity|].
  cbn [run fold_left]. fold (run JSON_parse inputs).
  replace (step JSON_parse i (coordinator (resetComparison c)))
    with (coordinator (resetComparison c)); [exact IH|].
  destruct i; reflexivity.
Qed.

(** *** The selection of models *)

Lemma existsb_eqb_In id (l : list string) :
  existsb (String.eqb id) l = true <-> In id l.
Proof.
  rewrite existsb_exists. split.
  - intros (x & Hin & Hx). apply String.eqb_eq in Hx. now subst.
  - intros Hin. exists id. split; [exact Hin | apply String.eqb_refl].
Qed.

Lemma filter_not_id_notin id (l : list string) :
  ~ In id l -> filter (fun x => negb (String.eqb x id)) l = l.
Proof.
  induction l as [|x l IH]; intros Hn; [reflexivity|].
  cbn. destruct (String.eqb_spec x id) as [->|Hne]; cbn.
  - exfalso. apply Hn. now left.
  - rewrite IH; [reflexivity|]. intros H. apply Hn. now right.
Qed.

(** A click on a model's button keeps the selection free of duplicates,
    flips whether that model is selected, and leaves every other model
    where it was: selected or not, and in the same order. *)
Theorem toggle_model_flips_one (id : string) (prev : list string) :
  NoDup prev ->
  NoDup (toggle_model id prev) /\
  (In id (toggle_model id prev) <-> ~ In id prev) /\
  (forall x, x <> id -> (In x (toggle_model id prev) <-> In x prev)) /\
  filter (fun x => negb (String.eqb x id)) (toggle_model id prev) =
  filter (fun x => negb (String.eqb x id)) prev.
Proof.
  intros Hnd. unfold toggle_model.
  destruct (existsb (String.eqb id) prev) eqn:E.
  - apply existsb_eqb_In in E. split; [now apply NoDup_filter|].
    split; [|split].
    + rewrite filter_In, String.eqb_refl. cbn. intuition discriminate.
    + intros x Hx. rewrite filter_In.
      apply String.eqb_neq in Hx. rewrite Hx. cbn. tauto.
    + apply CoordinatorFacts.filter_idem.
  - assert (Hn : ~ In id prev).
    { intros H. apply existsb_eqb_In in H. congruence. }
    split; [|split; [|split]].
    + apply NoDup_app; [exact Hnd | repeat constructor; intros [] |].
      intros a Ha [<-|[]]. contradiction.
    + rewrite in_app_iff. cbn. tauto.
    + intros x Hx. rewrite in_app_iff. cbn. intuition congruence.
    + rewrite filter_app. cbn. rewrite String.eqb_refl. cbn.
      apply app_nil_r.
Qed.

Lemma toggle_model_flips_one_witness :
  NoDup initial_selection /\
  toggle_model "deepseek" initial_selection = ["zhipu"; "kimi"] /\
  toggle_model "deepseek" (toggle_model "deepseek" initial_selection)
  = ["zhipu"; "kimi"; "deepseek"] /\
  NoDup (toggle_model "deepseek" initial_selection).
Proof.
  assert (Hnd : NoDup initial_selection)
    by (repeat constructor; cbn; intuition discriminate).
  split; [exact Hnd|]. split; [reflexivity|]. split; [reflexivity|].
  exact (proj1 (toggle_model_flips_one "deepseek" initial_selection Hnd)).
Defined.

Lemma toggles_NoDup ids : forall sel,
  NoDup sel -> NoDup (fold_left (fun l id => toggle_model id l) ids sel).
Proof.
  induction ids as [|id ids IH]; intros sel Hnd; [exact Hnd|].
  cbn. apply IH. unfold toggle_model.
  destruct (existsb (String.eqb id) sel) eqn:E; [now apply NoDup_filter|].
  apply NoDup_app; [exact Hnd | repeat constructor; intros [] |].
  intros a Ha [<-|[]]. apply existsb_eqb_In in Ha. congruence.
Qed.

(** Whatever buttons were clicked since the component mounted, the
    selection has no duplicates, so the run that starts has exactly the
    selected models as workers, numbered in the order of the selection. *)
Theorem selection_numbers_the_workers (ids : list string) (now : Z) :
  let selected :=
    fold_left (fun l id => toggle_model id l) ids initial_selection in
  NoDup selected /\
  keys (modelProgress (begin_run now selected)) = selected /\
  (forall m, In m selected ->
     exists e, worker m (begin_run now selected) = Some e).
Proof.
  cbv zeta.
  assert (Hnd : NoDup (fold_left (fun l id => toggle_model id l) ids
                         initial_selection)).
  { apply toggles_NoDup. repeat constructor; cbn; intuition discriminate. }
  split; [exact Hnd|]. split; [now apply begin_run_keys|].
  intros m Hin. unfold worker.
  destruct (get m (modelProgress (begin_run now _))) as [e|] eqn:E;
    [now exists e|].
  apply get_None_not_in in E. rewrite begin_run_keys in E by exact Hnd.
  contradiction.
Qed.

(** *** The cards *)






(** *** The workers of a run *)

Lemma handle_event_keeps_keys evt st :
  match event_model evt with
  | Some m => In m (keys (modelProgress st))
  | None => True
  end ->
  keys (modelProgress (handle_event evt st)) = keys (modelProgress st).
Proof.
  assert (Hset : forall m v o,
             In m (keys o) ->
             keys (set m (v : WorkerProgress) o) = keys o).
  { intros m v o Hin. rewrite keys_set.
    destruct (get m o) eqn:E; [reflexivity|].
    apply get_None_not_in in E. contradiction. }
  destruct evt as [?|m ? ? ?|m ? ? [r|]|m ? ? ?|?|?| |]; cbn [event_model];
    intros H; try reflexivity; now apply Hset.
Qed.

Lemma handle_event_selectedModels evt st :
  selectedModels (handle_event evt st) = selectedModels st.
Proof. destruct evt as [?|? ? ? ?|? ? ? [?|]|? ? ? ?|?|?| |]; reflexivity. Qed.

Lemma completed_count_le o :
  (completed_count o <= List.length (keys o))%nat.
Proof.
  unfold completed_count, keys. rewrite length_map. apply filter_length_le.
Qed.

Section Workers.
Variable JSON_parse : string -> option Event.
Variable selected : list string.
Hypothesis parse_selected :
  forall payload evt,
    JSON_parse payload = Some evt -> names_selected selected evt = true.

Lemma parsed_events_selected lines :
  Forall (fun evt => names_selected selected evt = true)
    (parsed_events JSON_parse lines).
Proof.
  induction lines as [|l ls IH]; [constructor|].
  cbn [parsed_events]. destruct (data_payload l) as [payload|]; [|exact IH].
  destruct (JSON_parse payload) as [evt|] eqn:E; [|exact IH].
  constructor; [now apply (parse_selected payload) | exact IH].
Qed.

Lemma handle_events_keeps_keys evts : forall st,
  Forall (fun evt => names_selected selected evt = true) evts ->
  keys (modelProgress st) = selected ->
  keys (modelProgress (handle_events evts st)) = selected /\
  selectedModels (handle_events evts st) = selectedModels st.
Proof.
  induction evts as [|evt evts IH]; intros st Hall Hk; [now split|].
  apply Forall_cons_iff in Hall as [Hevt Hrest].
  change (handle_events (evt :: evts) st)
    with (handle_events evts (handle_event evt st)).
  assert (Hk' : keys (modelProgress (handle_event evt st)) = selected).
  { rewrite handle_event_keeps_keys; [exact Hk|].
    unfold names_selected in Hevt.
    destruct (event_model evt) as [m|]; [|exact I].
    rewrite Hk. now apply existsb_eqb_In. }
  destruct (IH (handle_event evt st) Hrest Hk') as [H1 H2].
  split; [exact H1 | now rewrite H2, handle_event_selectedModels].
Qed.

Lemma step_keeps_keys i st :
  keys (modelProgress st) = selected -> selectedModels st = selected ->
  keys (modelProgress (step JSON_parse i st)) = selected /\
  selectedModels (step JSON_parse i st) = selected.
Proof.
  intros Hk Hs. destruct i as [value|refresh|refresh|message|now|];
    cbn [step].
  - destruct (reading st); [|now split].
    rewrite process_chunk_events.
    destruct (handle_events_keeps_keys
                (parsed_events JSON_parse
                   (fst (read_chunk (sseBuffer st) value)))
                (with_sseBuffer (snd (read_chunk (sseBuffer st) value)) st)
                (parsed_events_selected _) Hk) as [H1 H2].
    split; [exact H1 | now rewrite H2].
  - now destruct (reading st).
  - now destruct (reading st).
  - destruct (reading st); [|now split].
    split; [|exact Hs].
    unfold on_failure, finish, with_modelProgress, with_error.
    cbn [modelProgress selectedModels]. unfold mark_all_failed.
    rewrite (keys_fold_set_present
               (fun m o =>
                  {| stage := "Failed";
                     startTime := spread_startTime (get m o);
                     currentDuration := spread_currentDuration (get m o);
                     progress := number_or_0 (option_map progress (get m o));
                     status := failed;
                     resultSummary := spread_resultSummary (get m o) |}));
      [exact Hk|].
    intros k Hin. now rewrite Hk, <- Hs.
  - destruct (isRunning st); [|now split].
    split; [|exact Hs]. cbn [with_modelProgress modelProgress].
    unfold tick. now rewrite keys_mapi_from.
  - split; [|exact Hs]. unfold stopComparison, finish, with_modelProgress.
    cbn [modelProgress]. now rewrite keys_map_values.
Qed.

Lemma run_keeps_keys inputs : forall st,
  keys (modelProgress st) = selected -> selectedModels st = selected ->
  keys (modelProgress (run JSON_parse inputs st)) = selected.
Proof.
  induction inputs as [|i inputs IH]; intros st Hk Hs; [exact Hk|].
  change (run JSON_parse (i :: inputs) st)
    with (run JSON_parse inputs (step JSON_parse i st)).
  destruct (step_keeps_keys i st Hk Hs) as [H1 H2]. now apply IH.
Qed.

End Workers.

(** As long as every event of the stream names a selected model, the
    progress object holds exactly the selected models, in the order of the
    selection, through the whole run: chunks, ticks, the end of the stream,
    a failure, a stop.  So the header never counts more completed workers
    than models were selected. *)
Theorem run_keeps_selected_workers (JSON_parse : string -> option Event)
  (now : Z) (selected : list string) (inputs : list Input) :
  NoDup selected ->
  (forall payload evt,
     JSON_parse payload = Some evt -> names_selected selected evt = true) ->
  let st := run JSON_parse inputs (begin_run now selected) in
  keys (modelProgress st) = selected /\
  (completed_count (modelProgress st) <= List.length selected)%nat.
Proof.
  intros Hnd Hparse. cbv zeta.
  assert (Hk : keys (modelProgress
                       (run JSON_parse inputs (begin_run now selected)))
               = selected).
  { apply run_keeps_keys; [exact Hparse | now apply begin_run_keys |
                           reflexivity]. }
  split; [exact Hk|]. rewrite <- Hk at 2. apply completed_count_le.
Qed.

Lemma sample_parse_selected payload evt :
  sample_parse payload = Some evt -> names_selected ["a"; "b"] evt = true.
Proof.
  unfold sample_parse.
  repeat match goal with
         | |- context [String.eqb payload ?s] =>
             destruct (String.eqb payload s)
         end;
    intros [= <-]; reflexivity.
Defined.

Lemma run_keeps_selected_workers_witness :
  let inputs := [Chunk ("data: a40" ++ String LF "data: zz");
                 Tick 5000;
                 Chunk (String LF ("data: adone" ++ String LF ""));
                 Chunk ("data: bfail" ++ String LF "");
                 StreamDone None] in
  let st := run sample_parse inputs (begin_run 0 ["a"; "b"]) in
  NoDup ["a"; "b"] /\
  status_of "a" st = Some completed /\ status_of "b" st = Some failed /\
  keys (modelProgress st) = ["a"; "b"] /\
  (completed_count (modelProgress st) <= 2)%nat.
Proof.
  cbv zeta.
  assert (Hnd : NoDup ["a"; "b"])
    by (repeat constructor; cbn; intuition discriminate).
  split; [exact Hnd|]. split; [reflexivity|]. split; [reflexivity|].
  match goal with
  | |- keys (modelProgress (run _ ?inputs _)) = _ /\ _ =>
      exact (run_keeps_selected_workers sample_parse 0 ["a"; "b"] inputs
               Hnd sample_parse_selected)
  end.
Defined.

(** An event for a model that was not selected adds a worker that no
    card shows, and the header counts it when it completes: the count can
    pass the number of selected models. *)
Example unselected_worker_is_counted :
  let rs := {| rs_word_count := 1200; rs_sources_found := 8;
               rs_duration := 9 |} in
  let st := handle_events [model_complete "zz" 9 rs None;
                           model_complete "a" 9 rs None]
              (begin_run 0 ["a"]) in
  completed_count (modelProgress st) = 2%nat /\
  List.length (selectedModels st) = 1%nat.
Proof. cbv zeta. split; reflexivity. Qed.

(** *** Stop *)

Lemma stop_entry_idem e : stop_entry (stop_entry e) = stop_entry e.
Proof.
  unfold stop_entry. destruct (status e) eqn:E; cbn; rewrite ?E; reflexivity.
Qed.

Lemma stop_entry_terminal e :
  (status (stop_entry e) = completed \/ status (stop_entry e) = failed) /\
  bar_width (stop_entry e) = 100%Z.
Proof.
  unfold stop_entry, bar_width.
  destruct (status e) eqn:E; cbn; rewrite ?E; auto.
Qed.

(** After a stop no worker is running or pending: every worker is
    completed or failed and every bar is full.  Stopping again changes
    nothing. *)
Theorem stop_leaves_no_worker_running (st : State) :
  Forall (fun kv =>
            (status (snd kv) = completed \/ status (snd kv) = failed) /\
            bar_width (snd kv) = 100%Z)
    (modelProgress (stopComparison st)) /\
  stopComparison (stopComparison st) = stopComparison st.
Proof.
  split.
  - cbn. unfold map_values. apply Forall_map, Forall_forall.
    intros kv _. apply stop_entry_terminal.
  - unfold stopComparison, finish, with_modelProgress. cbn. f_equal.
    unfold map_values. rewrite map_map. apply map_ext.
    intros [k e]. cbn. now rewrite stop_entry_idem.
Qed.

(** *** The ways a stream ends *)

Section Endings.
Variable JSON_parse : string -> option Event.

Lemma step_keeps_reading i st :
  keeps_reading i = true ->
  reading (step JSON_parse i st) = reading st.
Proof.
  destruct i as [value| | | |now|]; try discriminate; intros _; cbn [step].
  - destruct (reading st) eqn:E; [|exact E].
    rewrite process_chunk_events, handle_events_reading. exact E.
  - now destruct (isRunning st).
Qed.

Lemma run_keeps_reading inputs : forall st,
  forallb keeps_reading inputs = true ->
  reading (run JSON_parse inputs st) = reading st.
Proof.
  induction inputs as [|i inputs IH]; intros st H; [reflexivity|].
  cbn in H. apply andb_prop in H as [Hi Hrest].
  change (run JSON_parse (i :: inputs) st)
    with (run JSON_parse inputs (step JSON_parse i st)).
  now rewrite IH, step_keeps_reading.
Qed.

Lemma run_app inputs1 inputs2 st :
  run JSON_parse (inputs1 ++ inputs2) st =
  run JSON_parse inputs2 (run JSON_parse inputs1 st).
Proof. apply fold_left_app. Qed.

End Endings.

(** When the stream ends after chunks and ticks, the run-level error is
    what the refresh of the metrics leaves, not what the stream reported:
    none if the refresh succeeds, although an [error] event had set one.
    The run is over, and every worker's entry is as the last chunk or
    tick left it. *)
Theorem stream_end_replaces_error (JSON_parse : string -> option Event)
  (inputs : list Input) (refresh : option string) (st : State) :
  reading st = true ->
  forallb keeps_reading inputs = true ->
  let st' := run JSON_parse (inputs ++ [StreamDone refresh]) st in
  error st' = refresh /\ isRunning st' = false /\ reading st' = false /\
  modelProgress st' = modelProgress (run JSON_parse inputs st) /\
  earlyResults st' = earlyResults (run JSON_parse inputs st).
Proof.
  intros Hr Hin. cbv zeta. rewrite run_app.
  cbn [run fold_left step].
  rewrite (run_keeps_reading JSON_parse inputs st Hin), Hr.
  now repeat split.
Qed.

Lemma stream_end_replaces_error_witness :
  let inputs := [Chunk ("data: oops" ++ String LF ""); Tick 2000;
                 Chunk ("data: a40" ++ String LF "")] in
  let st := begin_run 0 ["a"] in
  error (run sample_parse inputs st) = Some "upstream unavailable" /\
  error (run sample_parse (inputs ++ [StreamDone None]) st) = None /\
  status_of "a" (run sample_parse (inputs ++ [StreamDone None]) st)
  = Some running.
Proof.
  cbv zeta. split; [reflexivity|]. split; [|reflexivity].
  match goal with
  | |- error (run _ (?inputs ++ _) ?st) = _ =>
      exact (proj1 (stream_end_replaces_error sample_parse inputs None st
                      eq_refl eq_refl))
  end.
Defined.

Lemma get_fold_set_prev {V} (G : option V -> V) sel m :
  (forall x, G (Some (G x)) = G x) ->
  In m sel ->
  forall o, get m (fold_left (fun o k => set k (G (get k o)) o) sel o)
            = Some (G (get m o)).
Proof.
  intros Hidem. induction sel as [|k sel IH]; intros Hin o; [contradiction|].
  cbn [fold_left].
  destruct (in_dec string_dec m sel) as [Hm|Hm].
  - rewrite IH by exact Hm. destruct (String.eqb_spec k m) as [->|Hne].
    + now rewrite get_set_eq, Hidem.
    + now rewrite get_set_ne.
  - destruct Hin as [->|Hin]; [|contradiction].
    rewrite (get_fold_set_notin (fun k o => G (get k o))) by exact Hm.
    apply get_set_eq.
Qed.

Lemma number_or_0_some n : number_or_0 (Some n) = n.
Proof. cbn. now destruct (Z.eqb_spec n 0). Qed.

(** When the request or a read fails, the run-level error is the
    failure's message and every selected worker is failed under the stage
    "Failed", whatever its status was, a completed worker too; it keeps
    the progress it showed.  Workers that were not selected are left as
    they are. *)
Theorem stream_failure_fails_selected_workers
  (JSON_parse : string -> option Event) (message : string) (st : State) :
  reading st = true ->
  let st' := step JSON_parse (StreamFailed message) st in
  error st' = Some message /\ isRunning st' = false /\
  (forall w, In w (selectedModels st) ->
     exists e, worker w st' = Some e /\
               status e = failed /\ stage e = "Failed" /\
               progress e = number_or_0 (progress_of w st)) /\
  (forall w, ~ In w (selectedModels st) -> worker w st' = worker w st).
Proof.
  intros Hr. cbv zeta. cbn [step]. rewrite Hr.
  split; [reflexivity|]. split; [reflexivity|].
  unfold worker, on_failure, finish, with_modelProgress, with_error.
  cbn [modelProgress selectedModels]. unfold mark_all_failed.
  set (G := fun prev : option WorkerProgress =>
              {| stage := "Failed";
                 startTime := spread_startTime prev;
                 currentDuration := spread_currentDuration prev;
                 progress := number_or_0 (option_map progress prev);
                 status := failed;
                 resultSummary := spread_resultSummary prev |}).
  split.
  - intros w Hin. eexists. split.
    + apply (get_fold_set_prev G); [|exact Hin].
      intros x. unfold G. cbn -[number_or_0]. now rewrite number_or_0_some.
    + now repeat split.
  - intros w Hin.
    now rewrite (get_fold_set_notin (fun k o => G (get k o))).
Qed.

Lemma stream_failure_fails_selected_workers_witness :
  let st := run sample_parse
              [Chunk ("data: a40" ++ String LF "");
               Chunk ("data: adone" ++ String LF "")]
              (begin_run 0 ["a"; "b"]) in
  let st' := step sample_parse (StreamFailed "network error") st in
  status_of "a" st = Some completed /\
  status_of "a" st' = Some failed /\ progress_of "a" st' = Some 100%Z /\
  error st' = Some "network error".
Proof.
  cbv zeta. do 3 (split; [reflexivity|]).
  match goal with
  | |- error (step _ (StreamFailed ?msg) ?st) = _ =>
      exact (proj1 (stream_failure_fails_selected_workers sample_parse
                      msg st eq_refl))
  end.
Defined.

(** *** Ticks without server events *)

Lemma tick_entry_keeps_cap now j e :
  status e = running -> (0 <= progress e <= 15)%Z ->
  status (tick_entry now j e) = running /\
  (0 <= progress (tick_entry now j e) <= 15)%Z.
Proof.
  intros Hst Hp. unfold tick_entry. rewrite Hst. cbn [status progress].
  split; [reflexivity|]. unfold syntheticProgress.
  destruct (adjustedElapsed _ j) as [adj|]; [|lia].
  destruct ((progress e <? 15)%Z && Qltb 0 adj); lia.
Qed.

Lemma begin_run_worker now selected w e :
  worker w (begin_run now selected) = Some e ->
  status e = running /\ progress e = 0%Z /\ startTime e = Some now.
Proof.
  intros He.
  destruct (in_dec string_dec w selected) as [Hin|Hin];
    [|now rewrite begin_run_not_selected in He].
  revert He. unfold worker, begin_run, start_tracking.
  cbn [modelProgress].
  set (G := fun prev : option WorkerProgress =>
              {| stage := "Running research...";
                 startTime := spread_startTime prev;
                 currentDuration := spread_currentDuration prev;
                 progress := 0;
                 status := running;
                 resultSummary := spread_resultSummary prev |}).
  rewrite (get_fold_set_prev G) by (exact Hin || reflexivity).
  intros [= <-]. split; [reflexivity|]. split; [reflexivity|].
  unfold G. cbn [startTime]. unfold initialProgress.
  now rewrite (get_fold_set_in
                 (fun _ =>
                    {| stage := "Initializing...";
                       startTime := Some now;
                       currentDuration := Some 0%Q;
                       progress := 0;
                       status := pending;
                       resultSummary := None |})).
Qed.

Lemma ticks_keep_cap JSON_parse nows : forall st,
  (forall w e, worker w st = Some e ->
               status e = running /\ (0 <= progress e <= 15)%Z) ->
  forall w e,
    worker w (run JSON_parse (map Tick nows) st) = Some e ->
    status e = running /\ (0 <= progress e <= 15)%Z.
Proof.
  induction nows as [|now nows IH]; intros st Hinv; [exact Hinv|].
  change (run JSON_parse (map Tick (now :: nows)) st)
    with (run JSON_parse (map Tick nows) (step JSON_parse (Tick now) st)).
  apply IH. intros w e. cbn [step].
  destruct (isRunning st); [|apply Hinv].
  rewrite worker_on_tick.
  destruct (index_of w (modelProgress st)) as [j|]; [|discriminate].
  destruct (worker w st) as [e0|] eqn:E0; [|discriminate].
  intros [= <-]. destruct (Hinv w e0 E0) as [Hs Hp].
  now apply tick_entry_keeps_cap.
Qed.

(** While the server is silent, the ticks alone never show more than 15
    percent: from the start of a run, after any number of ticks at any
    times, every worker is still running with a progress between 0 and
    15. *)
Theorem ticks_alone_stay_under_cap (JSON_parse : string -> option Event)
  (now : Z) (selected : list string) (nows : list Z) (w : string)
  (e : WorkerProgress) :
  worker w (run JSON_parse (map Tick nows) (begin_run now selected))
  = Some e ->
  status e = running /\ (0 <= progress e <= 15)%Z.
Proof.
  apply ticks_keep_cap. intros w0 e0 He0.
  destruct (begin_run_worker now selected w0 e0 He0) as (Hs & Hp & _).
  split; [exact Hs | lia].
Qed.

Lemma ticks_alone_stay_under_cap_witness :
  let st := run sample_parse (map Tick [1000; 20000; 3600000]%Z)
              (begin_run 0 ["a"; "b"; "c"]) in
  progress_of "c" st = Some 15%Z /\
  status_of "c" st = Some running /\
  exists e, worker "c" st = Some e /\
            status e = running /\ (0 <= progress e <= 15)%Z.
Proof.
  cbv zeta. split; [reflexivity|]. split; [reflexivity|].
  eexists. split; [reflexivity|].
  refine (ticks_alone_stay_under_cap sample_parse 0 ["a"; "b"; "c"]
            [1000; 20000; 3600000]%Z "c" _ eq_refl).
Defined.

(** *** The stream as a whole *)

(** A stream read to its end handles exactly the events of its complete
    lines, in order, as if the whole text had come at once; what follows
    the last line feed is never handled, not even when the stream ends. *)
Theorem stream_handles_complete_lines (JSON_parse : string -> option Event)
  (chunks : list string) (refresh : option string) (st : State) :
  reading st = true -> sseBuffer st = "" ->
  let text := joined chunks in
  let lines := map strip_cr (removelast (split_nl text)) in
  run JSON_parse (map Chunk chunks ++ [StreamDone refresh]) st =
  on_done refresh
    (handle_events (parsed_events JSON_parse lines)
       (with_sseBuffer (last (split_nl text) "") st)).
Proof.
  intros Hr Hb. cbv zeta. rewrite run_app.
  rewrite run_chunks_events by exact Hr.
  rewrite Hb, DecoderFacts.read_chunks_joined by reflexivity.
  cbn [fst snd run fold_left step].
  change ("" ++ joined chunks)%string with (joined chunks).
  rewrite handle_events_reading. cbn [reading with_sseBuffer].
  now rewrite Hr.
Qed.

Lemma stream_handles_complete_lines_witness :
  let chunks := ["data: a4"; ("0" ++ String LF "data: ad")%string; "one"] in
  let st := run sample_parse (map Chunk chunks ++ [StreamDone None])
              (begin_run 0 ["a"]) in
  joined chunks = ("data: a40" ++ String LF "data: adone")%string /\
  progress_of "a" st = Some 40%Z /\ status_of "a" st = Some running /\
  st = on_done None
         (handle_events [model_progress "a" "Searching" 3 40]
            (with_sseBuffer "data: adone" (begin_run 0 ["a"]))).
Proof.
  cbv zeta. do 3 (split; [reflexivity|]).
  match goal with
  | |- run _ (map Chunk ?chunks ++ _) ?st = _ =>
      exact (stream_handles_complete_lines sample_parse chunks None st
               eq_refl eq_refl)
  end.
Defined.

End ComponentFacts.

(** ** Properties of the history helpers *)

Module HistoryFacts.
Import Component History.

(** *** Counting words *)

(** The words of a text: its pieces that are not empty. *)
Lemma words_skip_run s :
  filter truthy (split_spaces_from true s) =
  filter truthy (split_spaces_from false s).
Proof.
  destruct s as [|c s]; [reflexivity|].
  cbn [split_spaces_from]. now destruct (is_space c).
Qed.

Lemma split_spaces_from_nonempty r s : split_spaces_from r s <> [].
Proof.
  revert r. induction s as [|c s IH]; intros r; cbn [split_spaces_from];
    [discriminate|].
  destruct (is_space c).
  - destruct r; [apply IH | discriminate].
  - destruct (split_spaces_from false s); discriminate.
Qed.

Lemma words_app_space a ws t :
  is_space ws = true ->
  (exists p ps ps',
     split_spaces_from false a = p :: ps /\
     split_spaces_from false (a ++ ws :: t) = p :: ps' /\
     filter truthy ps' =
     filter truthy ps ++ filter truthy (split_spaces_from true t)) /\
  (forall r,
     filter truthy (split_spaces_from r (a ++ ws :: t)) =
     filter truthy (split_spaces_from r a)
     ++ filter truthy (split_spaces_from true t)).
Proof.
  intros Hws. induction a as [|c a [IHh IHp]].
  - split.
    + exists [], [], (split_spaces_from true t).
      cbn [split_spaces_from app]. rewrite Hws. now repeat split.
    + intros r. cbn [split_spaces_from app]. rewrite Hws.
      now destruct r.
  - cbn [app split_spaces_from]. destruct (is_space c) eqn:Ec.
    + split.
      * exists [], (split_spaces_from true a),
          (split_spaces_from true (a ++ ws :: t)).
        repeat split. apply IHp.
      * intros [|]; cbn [filter truthy]; apply IHp.
    + destruct IHh as (p & ps & ps' & E1 & E2 & E3). rewrite E1, E2.
      split.
      * exists (c :: p), ps, ps'. now repeat split.
      * intros r. cbn [filter truthy]. now rewrite E3.
Qed.

Lemma words_blank r s :
  trim_start s = [] <-> filter truthy (split_spaces_from r s) = [].
Proof.
  revert r. induction s as [|c s IH]; intros r; [now split|].
  cbn [trim_start split_spaces_from]. destruct (is_space c).
  - destruct r; cbn [filter truthy]; apply IH.
  - destruct (split_spaces_from false s); split; discriminate.
Qed.

Lemma trim_blank s : truthy (trim s) = false <-> trim_start s = [].
Proof.
  unfold trim.
  destruct (ComponentFacts.trim_start_head s) as [-> | (c & t & -> & Hc)];
    [now split|].
  destruct (ComponentFacts.trim_end_head c t Hc) as [t' ->].
  split; discriminate.
Qed.

(** The word count of two texts joined by a white-space character is the
    sum of their word counts, however much white space either has at its
    ends; and a text counts no word exactly when trimming leaves nothing
    of it. *)
Theorem wordCount_adds_over_spaces (a b : list N) (ws : N) :
  is_space ws = true ->
  wordCount (a ++ ws :: b) = (wordCount a + wordCount b)%nat /\
  (wordCount a = 0%nat <-> truthy (trim a) = false).
Proof.
  intros Hws. unfold wordCount, split_spaces. split.
  - rewrite (proj2 (words_app_space a ws b Hws) false).
    now rewrite length_app, words_skip_run.
  - rewrite trim_blank, (words_blank false a).
    destruct (filter truthy (split_spaces_from false a)); split;
      (reflexivity || discriminate).
Qed.

Lemma wordCount_adds_over_spaces_witness :
  is_space 12288 = true /\
  wordCount (code_units "  deep   research ") = 2%nat /\
  wordCount [20320; 22909]%N = 1%nat /\
  wordCount (code_units "  deep   research " ++ 12288%N :: [20320; 22909]%N)
  = 3%nat.
Proof.
  split; [reflexivity|]. split; [reflexivity|]. split; [reflexivity|].
  exact (proj1 (wordCount_adds_over_spaces
                  (code_units "  deep   research ") [20320; 22909]%N
                  12288%N eq_refl)).
Defined.

(** *** The order of the history *)

Lemma insert_session_perm s l : Permutation (insert_session s l) (s :: l).
Proof.
  induction l as [|t l IH]; [reflexivity|].
  cbn. destruct (created t <=? created s)%Z; [reflexivity|].
  rewrite IH. apply perm_swap.
Qed.

Lemma insert_session_newest_first s l :
  newest_first l = true -> newest_first (insert_session s l) = true.
Proof.
  induction l as [|t l IH]; [reflexivity|].
  intros H. cbn [insert_session].
  destruct (created t <=? created s)%Z eqn:E.
  - cbn [newest_first]. now rewrite E.
  - assert (Hl : newest_first l = true).
    { destruct l; [reflexivity|]. cbn in H. now apply andb_prop in H. }
    specialize (IH Hl). destruct l as [|u l].
    + cbn. apply Z.leb_gt in E.
      destruct (Z.leb_spec (created s) (created t)); [reflexivity | lia].
    + cbn [insert_session] in *.
      cbn [newest_first] in H. apply andb_prop in H as [Hut _].
      destruct (created u <=? created s)%Z eqn:E2.
      * cbn [newest_first] in *. apply Z.leb_gt in E.
        destruct (Z.leb_spec (created s) (created t)); [exact IH | lia].
      * cbn [newest_first] in *. now rewrite Hut.
Qed.

Lemma insert_session_filter k s l :
  filter (fun x => (created x =? k)%Z) (insert_session s l) =
  filter (fun x => (created x =? k)%Z) (s :: l).
Proof.
  induction l as [|t l IH]; [reflexivity|].
  cbn [insert_session]. destruct (created t <=? created s)%Z eqn:E;
    [reflexivity|].
  apply Z.leb_gt in E. cbn [filter] in *. rewrite IH.
  destruct (Z.eqb_spec (created s) k) as [Hs|Hs];
    destruct (Z.eqb_spec (created t) k) as [Ht|Ht]; try reflexivity.
  lia.
Qed.

(** The history lists the stored sessions newest first: the same
    sessions, no later one before an earlier one, and sessions created at
    the same time in the order the store gave them.  Without a database,
    or before the query has data, it is empty. *)
Theorem history_is_newest_first (sessions : list ResearchSession) :
  let shown := useResearchHistory true (Some sessions) in
  Permutation shown sessions /\
  newest_first shown = true /\
  (forall t, filter (fun s => (created s =? t)%Z) shown =
             filter (fun s => (created s =? t)%Z) sessions) /\
  (forall data, useResearchHistory false data = []) /\
  useResearchHistory true None = [].
Proof.
  cbv zeta. unfold useResearchHistory, sort_sessions.
  split; [|split; [|split; [|now split]]].
  - induction sessions as [|s l IH]; [reflexivity|].
    cbn [fold_right]. rewrite insert_session_perm. now constructor.
  - induction sessions as [|s l IH]; [reflexivity|].
    cbn [fold_right]. now apply insert_session_newest_first.
  - intros t. induction sessions as [|s l IH]; [reflexivity|].
    cbn [fold_right]. rewrite insert_session_filter.
    cbn [filter]. now rewrite IH.
Qed.

(** *** The age of a session *)

(** A timestamp that is missing, or beyond the range of dates, is
    labelled "Invalid Date".  The label of any other goes by its age alone:
    under a minute, or for a timestamp that lies ahead, it is the text for
    "just now"; then whole minutes from 1 to 59, whole hours from 1 to 23,
    whole days from 1 to 6, each rounded down; from seven days on, the
    date. *)
Theorem formatTimestamp_by_age (toLocaleDateString : Z -> string)
  (now : Z) (timestamp : option Z) :
  let label := formatTimestamp toLocaleDateString now timestamp in
  (timestamp = None -> label = "Invalid Date") /\
  (forall t, timestamp = Some t ->
     (8640000000000000 < Z.abs t)%Z -> label = "Invalid Date") /\
  (forall t, timestamp = Some t ->
     (Z.abs t <= 8640000000000000)%Z ->
     let age := (now - t)%Z in
     ((age < 60000)%Z -> label = "刚刚") /\
     ((60000 <= age < 3600000)%Z ->
      label = (number_text (age / 60000) ++ " 分钟前")%string /\
      (1 <= age / 60000 <= 59)%Z) /\
     ((3600000 <= age < 86400000)%Z ->
      label = (number_text (age / 3600000) ++ " 小时前")%string /\
      (1 <= age / 3600000 <= 23)%Z) /\
     ((86400000 <= age < 604800000)%Z ->
      label = (number_text (age / 86400000) ++ " 天前")%string /\
      (1 <= age / 86400000 <= 6)%Z) /\
     ((604800000 <= age)%Z -> label = toLocaleDateString t)).
Proof.
  cbv zeta. unfold formatTimestamp, time_value.
  split; [now intros ->|]. split.
  - intros t -> Ht.
    destruct (Z.leb_spec (Z.abs t) 8640000000000000); [lia | reflexivity].
  - intros t -> Ht.
    destruct (Z.leb_spec (Z.abs t) 8640000000000000); [|lia].
    set (age := (now - t)%Z).
    repeat match goal with |- _ /\ _ => split end; intros Hage;
      repeat match goal with |- _ /\ _ => split end;
      try (Z.to_euclidean_division_equations; lia);
      repeat match goal with
             | |- context [(?a <? ?b)%Z] =>
                 destruct (Z.ltb_spec a b)
             end;
      try reflexivity;
      exfalso; Z.to_euclidean_division_equations; lia.
Qed.

(** A session without [createdAt] sorts as the oldest and is labelled
    "Invalid Date"; a timestamp two hours back is labelled by its hours. *)
Example formatTimestamp_samples :
  formatTimestamp (fun _ => "2026年1月1日") 1767225600000 None
  = "Invalid Date" /\
  formatTimestamp (fun _ => "2026年1月1日") 1767225600000
    (Some (1767225600000 - 7200000 - 1)%Z)
  = "2 小时前" /\
  formatTimestamp (fun _ => "2026年1月1日") 1767225600000
    (Some (1767225600000 + 5000)%Z)
  = "刚刚".
Proof. repeat split. Qed.

End HistoryFacts.

(** ** Properties of the language provider *)

Module LanguageFacts.
Import LanguageContext.

Lemma mount_after_set lang p :
  mount (stored (setLanguage lang p)) = setLanguage lang p.
Proof. now destruct lang. Qed.

(** Once the language was set or toggled, the stored item is the code of
    the language shown, so the provider that mounts after a reload is the
    one that was left; and an item that is neither code gives Chinese. *)
Theorem language_survives_reload (actions : list Action) (p : Provider) :
  actions <> [] ->
  mount (stored (act_all actions p)) = act_all actions p /\
  (forall saved,
     saved <> Some "zh" -> saved <> Some "en" ->
     language (mount saved) = zh).
Proof.
  intros Hne. split.
  - destruct (exists_last Hne) as (l & a & ->).
    unfold act_all. rewrite fold_left_app. cbn [fold_left].
    destruct a as [lang|]; cbn [act]; [apply mount_after_set|].
    unfold toggleLanguage. apply mount_after_set.
  - intros saved Hzh Hen. unfold mount. cbn [language].
    destruct saved as [code|]; [|reflexivity].
    destruct (String.eqb_spec code "zh") as [->|]; [congruence|].
    destruct (String.eqb_spec code "en") as [->|]; [congruence|].
    reflexivity.
Qed.

Lemma language_survives_reload_witness :
  let p := mount (Some "fr") in
  let actions := [ToggleLanguage; ToggleLanguage; ToggleLanguage] in
  [ToggleLanguage; ToggleLanguage; ToggleLanguage] <> [] /\
  language p = zh /\
  language (act_all actions p) = en /\
  mount (stored (act_all actions p)) = act_all actions p.
Proof.
  cbv zeta.
  assert (Hne : [ToggleLanguage; ToggleLanguage; ToggleLanguage] <> [])
    by discriminate.
  split; [exact Hne|]. split; [reflexivity|]. split; [reflexivity|].
  exact (proj1 (language_survives_reload _ (mount (Some "fr")) Hne)).
Defined.

End LanguageFacts.
